(** * SyncKV: a shallow embedding of src/SyncKV.ts

    The client/server synchronisation engine of the repository, embedded as
    executable Rocq definitions, followed by the theorems that settle the
    claims of the specification against it.

    Modelling conventions.
    - A JavaScript value is a [Value]: [undefined] plus the JSON data the
      specification admits.  The numbers are the doubles with an integer
      value, [NaN] and the two infinities: [VNum n] is the double nearest to
      the integer [n], which is [n] itself whenever a double holds [n].  The
      engine never computes with numbers; the test suite's [add] does, with
      JavaScript's [+], whose results on these values are values again.
    - A plain object used as a dictionary ([Database], [Patch]) is a
      [gmap string Value].  A key bound to [undefined] is different from an
      absent key, as it is for JavaScript's [in].  Properties inherited from
      [Object.prototype] are not modelled, and [Object.keys] enumerates in
      the map's order rather than in insertion order.
    - A method that mutates [this], may throw, and calls out to collaborators
      (subscription callbacks, the server handle, a client's [poke], the
      logger) is a computation in the monad [Eff]: it threads the state,
      stops at the first exception keeping the writes made so far, and
      records the calls to collaborators, in program order, as a trace.
    - A mutator is user code that only talks to its transaction; it is a
      [TxProg], a script of [get] and [set] calls, interpreted against the
      client's or the server's transaction class.
    - Collaborators are opaque.  A subscription callback, a logger, the
      server handle of a client and the [poke] of a connected client are
      recorded as called; what the callee does in turn, calling back into the
      caller included, is a call of its own.
    - [randomId()] draws from an oracle carried by the client state.
    - Mutation ids are strings, the empty string among them; the code tests
      an id's truthiness, and the theorems that need a truthy id say so. *)

From stdpp Require Import gmap strings list fin_maps pretty.
From Stdlib Require Import ZArith.

Local Open Scope string_scope.
Local Open Scope list_scope.
Local Open Scope nat_scope.

(* ================================================================== *)
(** ** Values and objects *)

#[local] Set Warnings "-register-all".
Inductive Value : Type :=
| VUndefined
| VNull
| VBool (b : bool)
| VNum (n : Z)
| VNaN
| VInfinity (negative : bool)
| VStr (s : string)
| VArr (items : list Value)
| VObj (fields : list (string * Value)).

(** JavaScript's ToBoolean on the values above. *)
Definition truthy (v : Value) : bool :=
  match v with
  | VUndefined | VNull | VNaN => false
  | VBool b => b
  | VNum n => negb (Z.eqb n 0)
  | VStr s => negb (String.eqb s "")
  | VInfinity _ | VArr _ | VObj _ => true
  end.

(** [a || b] *)
Definition js_or (a b : Value) : Value := if truthy a then a else b.

(** [a ?? b] *)
Definition js_nullish (a b : Value) : Value :=
  match a with
  | VUndefined | VNull => b
  | _ => a
  end.

(** [type Database = Record<string, any>], [type Patch = Record<string, any>] *)
Abbreviation Database := (gmap string Value).
Abbreviation Patch := (gmap string Value).

(** [obj[key]]: the value of an absent property is [undefined]. *)
Definition prop (obj : gmap string Value) (key : string) : Value :=
  default VUndefined (obj !! key).

(** [Object.assign(target, source)], also [{ ...target, ...source }]:
    the source's bindings overwrite the target's. *)
Definition assign (target source : gmap string Value) : gmap string Value :=
  source ∪ target.

(** [Object.keys(obj)] *)
Definition keys (obj : gmap string Value) : list string :=
  (map_to_list obj).*1.

(** The loop shared by the three readers of a sequence of patches:
    [for (p of patches) if (key in p) return p[key]]. *)
Fixpoint first_hit (key : string) (patches : list Patch) : option Value :=
  match patches with
  | [] => None
  | p :: rest =>
      match p !! key with
      | Some v => Some v
      | None => first_hit key rest
      end
  end.

(** [array.findIndex(pred)], with [None] for -1. *)
Fixpoint findIndex {A : Type} (pred : A → bool) (l : list A) : option nat :=
  match l with
  | [] => None
  | x :: rest => if pred x then Some 0 else S <$> findIndex pred rest
  end.

(** [array.splice(index, 1)] *)
Definition splice1 {A : Type} (index : nat) (l : list A) : list A :=
  take index l ++ drop (S index) l.

(** A truthy mutation id, as tested by [if (lastMutationId)]: present and
    not the empty string. *)
Definition truthy_id (id : option string) : bool :=
  match id with
  | None => false
  | Some s => negb (String.eqb s "")
  end.

(* ================================================================== *)
(** ** Mutators and the transaction interface *)

(** [type TransactionApi = { get, set }] *)
Class TransactionApi (T : Type) := {
  tx_get : T → string → Value;
  tx_set : T → string → Value → T;
}.

(** The body of a mutator: what it asks of its transaction, step by step.
    [TxThrow] is a raised exception. *)
Inductive TxProg : Type :=
| TxRet
| TxGet (key : string) (cont : Value → TxProg)
| TxSet (key : string) (value : Value) (next : TxProg)
| TxThrow.

(** [type AnyMutator = (tx, ...args) => void] *)
Definition AnyMutator : Type := list Value → TxProg.

(** Running a mutator body against a transaction; [None] when it throws. *)
Fixpoint run_prog {T : Type} `{TransactionApi T} (p : TxProg) (tx : T) : option T :=
  match p with
  | TxRet => Some tx
  | TxGet key cont => run_prog (cont (tx_get tx key)) tx
  | TxSet key value next => run_prog next (tx_set tx key value)
  | TxThrow => None
  end.

Module Mutation.
Record t := mk {
  mutationId : string;
  key : string;
  args : list Value;
}.
End Mutation.

Module OptimisticMutationRecord.
Record t := mk {
  mutationId : string;
  patch : Patch;
  key : string;
  args : list Value;
}.

(** [record.patch = p] *)
Definition set_patch (r : t) (p : Patch) : t :=
  mk (mutationId r) p (key r) (args r).
End OptimisticMutationRecord.

(** [class Transaction] *)
Module Transaction.
Record t := mk {
  db : Database;
  mutationId : string;
  patch : Patch;
}.

(** [new Transaction(db)], with the id [randomId()] returned. *)
Definition new (db : Database) (id : string) : t := mk db id ∅.

(** [return this.patch[key] || this.db[key]] *)
Definition get (tx : t) (key : string) : Value :=
  js_or (prop (patch tx) key) (prop (db tx) key).

(** [this.patch[key] = value] *)
Definition set (tx : t) (key : string) (value : Value) : t :=
  mk (db tx) (mutationId tx) (<[key := value]> (patch tx)).
End Transaction.

#[export] Instance Transaction_api : TransactionApi Transaction.t :=
  {| tx_get := Transaction.get; tx_set := Transaction.set |}.

(** [class ServerTransaction] *)
Module ServerTransaction.
Record t := mk {
  db : list Patch;
  patch : Patch;
}.

Definition new (db : list Patch) : t := mk db ∅.

(** [if (key in this.patch) return this.patch[key]], then the scan of the
    log from its last patch down; falling off the end returns [undefined]. *)
Definition get (tx : t) (key : string) : Value :=
  match patch tx !! key with
  | Some v => v
  | None => default VUndefined (first_hit key (reverse (db tx)))
  end.

Definition set (tx : t) (key : string) (value : Value) : t :=
  mk (db tx) (<[key := value]> (patch tx)).
End ServerTransaction.

#[export] Instance ServerTransaction_api : TransactionApi ServerTransaction.t :=
  {| tx_get := ServerTransaction.get; tx_set := ServerTransaction.set |}.

(* ------------------------------------------------------------------ *)
(** *** JavaScript's [+] *)

(** Round to nearest, ties to even, of a natural number to the 53
    significant bits of a double. *)
Definition round53 (a : Z) : Z :=
  let shift := (Z.log2 a + 1 - 53)%Z in
  if (shift <=? 0)%Z then a
  else
    let q := Z.shiftr a shift in
    let rest := (a - Z.shiftl q shift)%Z in
    let half := Z.shiftl 1 (shift - 1) in
    let up := (half <? rest)%Z || ((rest =? half)%Z && Z.odd q) in
    Z.shiftl (if up then q + 1 else q)%Z shift.

(** The double nearest to an integer; from [2^1024] on, the rounded
    magnitude is no double and the result is an infinity. *)
Definition double (n : Z) : Value :=
  let r := round53 (Z.abs n) in
  if (1024 <=? Z.log2 r)%Z then VInfinity (n <? 0)%Z else VNum (Z.sgn n * r).

(** [ToNumber] of [undefined], [null], a boolean or a number, the values
    [+] asks the number of: it concatenates a string, and has turned an array
    or an object into its string before, so the last three cases are never
    reached. *)
Definition to_number (v : Value) : Value :=
  match v with
  | VUndefined | VNaN => VNaN
  | VNull => VNum 0
  | VBool b => VNum (if b then 1 else 0)
  | VNum n => double n
  | VInfinity negative => VInfinity negative
  | VStr _ | VArr _ | VObj _ => VNaN
  end.

(** The sum of two numbers: the exact sum of two doubles, rounded. *)
Definition number_add (l r : Value) : Value :=
  match l, r with
  | VNum x, VNum y => double (x + y)
  | VInfinity a, VInfinity b => if bool_decide (a = b) then VInfinity a else VNaN
  | VInfinity a, VNum _ => VInfinity a
  | VNum _, VInfinity b => VInfinity b
  | _, _ => VNaN
  end.

(** The digits [Number.prototype.toString] prints for a double [a > 0]
    with an integer value: the decimal integer with the fewest significant
    digits among those [a] is the nearest double to; of two with as few
    digits the one closer to [a], and the even one when they are as close.
    [scales] are the powers of ten to try, the largest first. *)
Fixpoint shortest_from (a : Z) (scales : list Z) : Z :=
  match scales with
  | [] => a
  | scale :: rest =>
      let lo := (a / scale * scale)%Z in
      let hi := (lo + scale)%Z in
      let ok_lo := (round53 lo =? a)%Z in
      let ok_hi := (round53 hi =? a)%Z in
      if ok_lo && ok_hi then
        if (a - lo <? hi - a)%Z then lo
        else if (hi - a <? a - lo)%Z then hi
        else if Z.even (a / scale) then lo else hi
      else if ok_lo then lo
      else if ok_hi then hi
      else shortest_from a rest
  end.

(** The number of decimal digits of a natural number. *)
Definition digits (a : Z) : nat := String.length (pretty a).

Definition shortest (a : Z) : Z :=
  shortest_from a ((λ k, 10 ^ Z.of_nat k)%Z <$> reverse (seq 0 (digits a))).

Fixpoint strip_zeros (fuel : nat) (v : Z) : Z :=
  match fuel with
  | 0 => v
  | S fuel' => if (v mod 10 =? 0)%Z then strip_zeros fuel' (v / 10)%Z else v
  end.

(** [String(a)] for a double [a > 0] with an integer value: the digits
    followed by zeros up to 21 digits in all, the exponent notation beyond. *)
Definition positive_to_string (a : Z) : string :=
  let v := shortest a in
  let n := digits v in
  if bool_decide (n ≤ 21) then pretty v
  else
    match pretty (strip_zeros n v) with
    | String d EmptyString => String d ("e+" +:+ pretty (n - 1))
    | String d more => String d ("." +:+ more +:+ "e+" +:+ pretty (n - 1))
    | EmptyString => ""
    end.

(** [String(x)] for a number. *)
Definition number_to_string (v : Value) : string :=
  match to_number v with
  | VNum n =>
      if (n <? 0)%Z then "-" +:+ positive_to_string (- n)
      else if (n =? 0)%Z then "0"
      else positive_to_string n
  | VInfinity negative => if negative then "-Infinity" else "Infinity"
  | _ => "NaN"
  end.

(** An object literal or parsed JSON object has the [toString] of
    [Object.prototype] unless a field of its own hides it; a field holds
    data, which is not callable. *)
Definition hides_toString (fields : list (string * Value)) : bool :=
  bool_decide ("toString" ∈ fields.*1).

(** [String(v)]; [None] is the TypeError "Cannot convert object to
    primitive value".  An array is joined with commas, [undefined] and
    [null] elements printing as nothing. *)
Fixpoint to_string (v : Value) : option string :=
  match v with
  | VUndefined => Some "undefined"
  | VNull => Some "null"
  | VBool b => Some (if b then "true" else "false")
  | VNum _ | VNaN | VInfinity _ => Some (number_to_string v)
  | VStr s => Some s
  | VArr items =>
      (fix join (elements : list Value) : option string :=
         match elements with
         | [] => Some ""
         | element :: rest =>
             first ← match element with
                     | VUndefined | VNull => Some ""
                     | _ => to_string element
                     end;
             match rest with
             | [] => Some first
             | _ => others ← join rest; Some (first +:+ "," +:+ others)
             end
         end) items
  | VObj fields =>
      if hides_toString fields then None else Some "[object Object]"
  end.

(** [ToPrimitive]: an array or an object becomes its string. *)
Definition to_primitive (v : Value) : option Value :=
  match v with
  | VArr _ | VObj _ => VStr <$> to_string v
  | _ => Some v
  end.

(** [l + r]: a concatenation when either side is a string once primitive,
    the sum of the two numbers otherwise; [None] when it throws. *)
Definition js_plus (l r : Value) : option Value :=
  lprim ← to_primitive l;
  rprim ← to_primitive r;
  match lprim, rprim with
  | VStr _, _ | _, VStr _ =>
      lstr ← to_string lprim;
      rstr ← to_string rprim;
      Some (VStr (lstr +:+ rstr))
  | _, _ => Some (number_add (to_number lprim) (to_number rprim))
  end.

(** The mutator of the test suite:
    [add: (tx, x) => { const value = tx.get("value") ?? 0; tx.set("value", value + x) }].
    A call without an argument has [x] undefined. *)
Definition add : AnyMutator := λ args,
  let x := default VUndefined (head args) in
  TxGet "value" (λ got,
    let value := js_nullish got (VNum 0) in
    match js_plus value x with
    | Some sum => TxSet "value" sum TxRet
    | None => TxThrow
    end).

(** A mutator that stores its first argument under a key:
    [(tx, v) => tx.set(key, v)]. *)
Definition put (key : string) : AnyMutator := λ args,
  TxSet key (default VUndefined (head args)) TxRet.

(* ================================================================== *)
(** ** Effects: state, exceptions and the trace of outside calls *)

Inductive Error : Type :=
| TypeError (what : string)
| MutatorError.

Inductive Completion (A : Type) : Type :=
| Normal (a : A)
| Throws (e : Error).
Arguments Normal {A} a.
Arguments Throws {A} e.

Section Eff.
Context {St Ev : Type}.

Definition Eff (A : Type) : Type := St → Completion A * St * list Ev.

Definition eff_ret {A} (a : A) : Eff A := λ s, (Normal a, s, []).

Definition eff_bind {A B} (m : Eff A) (f : A → Eff B) : Eff B := λ s,
  match m s with
  | (Normal a, s1, t1) =>
      let '(r, s2, t2) := f a s1 in (r, s2, t1 ++ t2)
  | (Throws e, s1, t1) => (Throws e, s1, t1)
  end.

Definition gets {A} (f : St → A) : Eff A := λ s, (Normal (f s), s, []).
Definition modify (f : St → St) : Eff unit := λ s, (Normal tt, f s, []).
Definition perform (e : Ev) : Eff unit := λ s, (Normal tt, s, [e]).
Definition throw {A} (e : Error) : Eff A := λ s, (Throws e, s, []).

(** [for (const x of l) body(x)] *)
Fixpoint for_each {A} (l : list A) (body : A → Eff unit) : Eff unit :=
  match l with
  | [] => eff_ret tt
  | x :: rest => eff_bind (body x) (λ _, for_each rest body)
  end.
End Eff.
Arguments Eff : clear implicits.

(** [Eff] is a monad in stdpp's sense, which gives it the notations
    [x ← m; k] and [m;; k]. *)
#[export] Instance Eff_ret {St Ev} : MRet (Eff St Ev) := @eff_ret St Ev.
#[export] Instance Eff_bind {St Ev} : MBind (Eff St Ev) :=
  λ A B f m, eff_bind m f.

(** The parts of a finished computation. *)
Definition completion {A St Ev} (r : Completion A * St * list Ev) : Completion A := r.1.1.
Definition final {A St Ev} (r : Completion A * St * list Ev) : St := r.1.2.
Definition trace {A St Ev} (r : Completion A * St * list Ev) : list Ev := r.2.

(* ================================================================== *)
(** ** The client *)

(** A subscription callback is an opaque function; only its identity
    matters to the engine ([indexOf]). *)
Definition Callback : Type := nat.

(** [array.indexOf(x)], on the identities of callbacks and of client
    handles alike. *)
Definition indexOf (x : Callback) (l : list Callback) : option nat :=
  findIndex (λ y, bool_decide (y = x)) l.

(** What [server.pull] resolves to. *)
Module PullResponse.
Record t := mk {
  cookie : nat;
  patch : Patch;
  lastMutationId : option string;
}.
End PullResponse.

(** The calls a client makes to its collaborators. *)
Inductive ClientEvent : Type :=
| Logged (message : string)
| Called (key : string) (callback : Callback) (value : Value)
| ServerPush (clientId : string) (mutations : list Mutation.t)
| ServerPull (clientId : string) (cookie : option nat).

Module SyncKVClient.
Record state := mk {
  mutators : gmap string AnyMutator;
  logger : bool;
  db : Database;
  clientId : string;
  optimisticMutations : list OptimisticMutationRecord.t;
  cookie : option nat;
  subscriptions : gmap string (list Callback);
  pullQueued : bool;
  (** the results [Math.random] will produce, and how many were drawn *)
  random : nat → string;
  drawn : nat;
}.

Definition with_db (v : Database) (st : state) : state :=
  mk (mutators st) (logger st) v (clientId st) (optimisticMutations st)
     (cookie st) (subscriptions st) (pullQueued st) (random st) (drawn st).
Definition with_optimisticMutations (v : list OptimisticMutationRecord.t)
    (st : state) : state :=
  mk (mutators st) (logger st) (db st) (clientId st) v
     (cookie st) (subscriptions st) (pullQueued st) (random st) (drawn st).
Definition with_cookie (v : option nat) (st : state) : state :=
  mk (mutators st) (logger st) (db st) (clientId st) (optimisticMutations st)
     v (subscriptions st) (pullQueued st) (random st) (drawn st).
Definition with_subscriptions (v : gmap string (list Callback))
    (st : state) : state :=
  mk (mutators st) (logger st) (db st) (clientId st) (optimisticMutations st)
     (cookie st) v (pullQueued st) (random st) (drawn st).
Definition with_pullQueued (v : bool) (st : state) : state :=
  mk (mutators st) (logger st) (db st) (clientId st) (optimisticMutations st)
     (cookie st) (subscriptions st) v (random st) (drawn st).
Definition with_drawn (v : nat) (st : state) : state :=
  mk (mutators st) (logger st) (db st) (clientId st) (optimisticMutations st)
     (cookie st) (subscriptions st) (pullQueued st) (random st) v.

Abbreviation M := (Eff state ClientEvent).

(** [this.logger?.log(message, ...)] *)
Definition log (message : string) : M unit :=
  present ← gets logger;
  if present : bool then perform (Logged message) else mret tt.

(** [randomId()] *)
Definition randomId : M string :=
  n ← gets drawn;
  oracle ← gets random;
  modify (with_drawn (S n));;
  mret (oracle n).

(** [this.mutators[key](tx, ...args)]: the transaction as the mutator
    leaves it.  An unregistered name is a call of [undefined]. *)
Definition call_mutator (key : string) (args : list Value)
    (tx : Transaction.t) : M Transaction.t :=
  registry ← gets mutators;
  match registry !! key with
  | None => throw (TypeError "this.mutators[key] is not a function")
  | Some mutator =>
      match run_prog (mutator args) tx with
      | Some tx' => mret tx'
      | None => throw MutatorError
      end
  end.

(** [get(key)]: the first optimistic record, in queue order, whose patch
    has the key; otherwise [this.db[key]]. *)
Definition get (key : string) (st : state) : Value :=
  match first_hit key (OptimisticMutationRecord.patch <$> optimisticMutations st) with
  | Some v => v
  | None => prop (db st) key
  end.

(** [emit(key)] *)
Definition emit (key : string) : M unit :=
  value ← gets (get key);
  subs ← gets subscriptions;
  match subs !! key with
  | None => mret tt
  | Some callbacks => for_each callbacks (λ callback, perform (Called key callback value))
  end.

(** [mutate.<key>(...args)] *)
Definition mutate (key : string) (args : list Value) : M unit :=
  log "Mutating";;
  d ← gets db;
  id ← randomId;
  tx ← call_mutator key args (Transaction.new d id);
  let mutation := Mutation.mk (Transaction.mutationId tx) key args in
  let record :=
    OptimisticMutationRecord.mk (Mutation.mutationId mutation)
      (Transaction.patch tx) (Mutation.key mutation) (Mutation.args mutation) in
  log "Optimistic mutation";;
  modify (λ st, with_optimisticMutations (optimisticMutations st ++ [record]) st);;
  for_each (keys (Transaction.patch tx)) emit;;
  log "Pushing mutation";;
  cid ← gets clientId;
  perform (ServerPush cid [mutation]).

(** The function [watch] returns. *)
Definition unsubscribe (key : string) (callback : Callback) : M unit :=
  subs ← gets subscriptions;
  match subs !! key with
  | None => mret tt
  | Some existing =>
      match indexOf callback existing with
      | None => mret tt
      | Some index =>
          modify (with_subscriptions (<[key := splice1 index existing]> subs))
      end
  end.

(** [watch(key, callback)] *)
Definition watch (key : string) (callback : Callback) : M (M unit) :=
  subs ← gets subscriptions;
  match subs !! key with
  | Some existing =>
      modify (with_subscriptions (<[key := existing ++ [callback]]> subs))
  | None =>
      modify (with_subscriptions (<[key := [callback]]> subs))
  end;;
  mret (unsubscribe key callback).

(** [poke()] *)
Definition poke : M unit :=
  log "Got poked";;
  c ← gets cookie;
  match c with
  | None => mret tt
  | Some c =>
      cid ← gets clientId;
      perform (ServerPull cid (Some c))
  end.

(** One turn of the rebase loop of [onPull], at index [i]. *)
Definition rebase_at (i : nat) (patchToEmit : Patch) : M Patch :=
  queue ← gets optimisticMutations;
  match queue !! i with
  | None => throw (TypeError "this.optimisticMutations[i] is undefined")
  | Some record =>
      d ← gets db;
      id ← randomId;
      tx ← call_mutator (OptimisticMutationRecord.key record)
             (OptimisticMutationRecord.args record) (Transaction.new d id);
      modify (λ st, with_optimisticMutations
        (<[i := OptimisticMutationRecord.set_patch record (Transaction.patch tx)]>
           (optimisticMutations st)) st);;
      mret (assign patchToEmit (Transaction.patch tx))
  end.

(** [for (let i = ...; i < length; i++)] over the indices it visits. *)
Fixpoint rebase_loop (indices : list nat) (patchToEmit : Patch) : M Patch :=
  match indices with
  | [] => mret patchToEmit
  | i :: rest =>
      patchToEmit' ← rebase_at i patchToEmit;
      rebase_loop rest patchToEmit'
  end.

(** [onPull({ cookie, patch, lastMutationId })] *)
Definition onPull (response : PullResponse.t) : M unit :=
  let cookie' := PullResponse.cookie response in
  let patch := PullResponse.patch response in
  let lastMutationId := PullResponse.lastMutationId response in
  log "Received pull";;
  if negb (truthy_id lastMutationId) then
    modify (λ st, with_db (assign (db st) patch) st);;
    modify (with_cookie (Some cookie'));;
    for_each (keys patch) emit;;
    queued ← gets pullQueued;
    if queued : bool then
      modify (with_pullQueued false);;
      poke
    else mret tt
  else
    queue ← gets optimisticMutations;
    match findIndex (λ mutation,
            bool_decide (Some (OptimisticMutationRecord.mutationId mutation)
                         = lastMutationId)) queue with
    | None => log "Optimistic mutations"
    | Some index =>
        modify (λ st, with_db (assign (db st) patch) st);;
        patchToEmit ← rebase_loop
          (seq (index + 1) (length queue - (index + 1))) patch;
        modify (λ st, with_optimisticMutations
          (drop (index + 1) (optimisticMutations st)) st);;
        log "client db";;
        modify (with_cookie (Some cookie'));;
        for_each (keys patchToEmit) emit
    end.

(** The field initialisers of the class. *)
Definition init (mutators : gmap string AnyMutator) (logger : bool)
    (random : nat → string) : state :=
  mk mutators logger ∅ (random 0) [] None ∅ false random 1.

(** The constructor's body. *)
Definition constructor : M unit :=
  log "Mounted client";;
  cid ← gets clientId;
  perform (ServerPull cid None).
End SyncKVClient.

(* ================================================================== *)
(** ** The server *)

(** A connected client ([SyncKVClientApi]) is an opaque object with a
    [poke] method; only its identity matters to the server. *)
Definition ClientHandle : Type := nat.

(** What the server does that a connected client can observe: its writes
    to the log, the version and the table of last mutation ids, and its
    calls of [poke]; and the logger's messages. *)
Inductive ServerEvent : Type :=
| ServerLogged (message : string)
| DbPushed (patch : Patch)
| VersionIncremented
| LastMutationIdSet (clientId mutationId : string)
| LastMutationIdDeleted (clientId : string)
| ClientPoked (client : ClientHandle).

Module SyncKVServer.
Record state := mk {
  mutators : gmap string AnyMutator;
  logger : bool;
  db : list Patch;
  version : nat;
  lastMutationIds : gmap string string;
  clients : list ClientHandle;
}.

Definition with_db (v : list Patch) (s : state) : state :=
  mk (mutators s) (logger s) v (version s) (lastMutationIds s) (clients s).
Definition with_version (v : nat) (s : state) : state :=
  mk (mutators s) (logger s) (db s) v (lastMutationIds s) (clients s).
Definition with_lastMutationIds (v : gmap string string) (s : state) : state :=
  mk (mutators s) (logger s) (db s) (version s) v (clients s).
Definition with_clients (v : list ClientHandle) (s : state) : state :=
  mk (mutators s) (logger s) (db s) (version s) (lastMutationIds s) v.

Abbreviation M := (Eff state ServerEvent).

(** [new SyncKVServer(mutators, initialState?, logger?)] *)
Definition new (mutators : gmap string AnyMutator)
    (initialState : option Database) (logger : bool) : state :=
  let db := match initialState with Some d => [d] | None => [] end in
  mk mutators logger db (length db) ∅ [].

Definition log (message : string) : M unit :=
  present ← gets logger;
  if present : bool then perform (ServerLogged message) else mret tt.

(** [this.db.push(patch)] *)
Definition db_push (patch : Patch) : M unit :=
  modify (λ s, with_db (db s ++ [patch]) s);;
  perform (DbPushed patch).

(** [this.version++] *)
Definition version_increment : M unit :=
  modify (λ s, with_version (S (version s)) s);;
  perform VersionIncremented.

(** [this.lastMutationIds.set(clientId, id)] *)
Definition lastMutationIds_set (clientId id : string) : M unit :=
  modify (λ s, with_lastMutationIds (<[clientId := id]> (lastMutationIds s)) s);;
  perform (LastMutationIdSet clientId id).

(** [this.lastMutationIds.delete(clientId)] *)
Definition lastMutationIds_delete (clientId : string) : M unit :=
  modify (λ s, with_lastMutationIds (delete clientId (lastMutationIds s)) s);;
  perform (LastMutationIdDeleted clientId).

(** [this.mutators[key](tx, ...args)] *)
Definition call_mutator (key : string) (args : list Value)
    (tx : ServerTransaction.t) : M ServerTransaction.t :=
  registry ← gets mutators;
  match registry !! key with
  | None => throw (TypeError "this.mutators[key] is not a function")
  | Some mutator =>
      match run_prog (mutator args) tx with
      | Some tx' => mret tx'
      | None => throw MutatorError
      end
  end.

(** [for (const { key, args } of mutations) this.mutators[key](tx, ...args)],
    every mutator writing to the one transaction. *)
Fixpoint run_mutations (mutations : list Mutation.t)
    (tx : ServerTransaction.t) : M ServerTransaction.t :=
  match mutations with
  | [] => mret tx
  | m :: rest =>
      tx' ← call_mutator (Mutation.key m) (Mutation.args m) tx;
      run_mutations rest tx'
  end.

(** [pokeAllClients()] *)
Definition pokeAllClients : M unit :=
  handles ← gets clients;
  for_each handles (λ client, perform (ClientPoked client)).

(** [pull(clientId, cookie = 0)] *)
Definition pull (clientId : string) (cookie : option nat) : M PullResponse.t :=
  let cookie := default 0 cookie in
  log "Received pull";;
  ids ← gets lastMutationIds;
  let lastMutationId := ids !! clientId in
  (if truthy_id lastMutationId
   then lastMutationIds_delete clientId
   else mret tt);;
  log_ ← gets db;
  let patchesSinceCookie := drop cookie log_ in
  log "patchesSinceCookie";;
  let patch := foldl (λ acc patch, assign acc patch) ∅ patchesSinceCookie in
  log "Sending";;
  log_' ← gets db;
  mret (PullResponse.mk (length log_') patch lastMutationId).

(** [push(clientId, mutations)].  The list is [None] when the caller
    passed [undefined], over which [for ... of] throws. *)
Definition push (clientId : string) (mutations : option (list Mutation.t)) : M unit :=
  log "Handling push";;
  log_ ← gets db;
  let tx := ServerTransaction.new log_ in
  match mutations with
  | None => throw (TypeError "mutations is not iterable")
  | Some batch =>
      tx' ← run_mutations batch tx;
      db_push (ServerTransaction.patch tx');;
      log "New db";;
      version_increment;;
      match last batch with
      | None => throw (TypeError "mutations[mutations.length - 1] is undefined")
      | Some m =>
          lastMutationIds_set clientId (Mutation.mutationId m);;
          pokeAllClients
      end
  end.

(** The function [connectToClient] returns. *)
Definition disconnect (client : ClientHandle) : M unit :=
  handles ← gets clients;
  match indexOf client handles with
  | None => mret tt
  | Some index => modify (with_clients (splice1 index handles))
  end.

(** [connectToClient(client)] *)
Definition connectToClient (client : ClientHandle) : M (M unit) :=
  modify (λ s, with_clients (clients s ++ [client]) s);;
  mret (disconnect client).

(** [get(key)]: the log scanned from its last patch down. *)
Definition get (key : string) (s : state) : Value :=
  default VUndefined (first_hit key (reverse (db s))).

(** The calls the server accepts, and a server serving a sequence of them. *)
Inductive Request : Type :=
| Pull (clientId : string) (cookie : option nat)
| Push (clientId : string) (mutations : option (list Mutation.t))
| Connect (client : ClientHandle)
| Disconnect (client : ClientHandle).

Definition serve (s : state) (r : Request) : state :=
  match r with
  | Pull clientId cookie => final (pull clientId cookie s)
  | Push clientId mutations => final (push clientId mutations s)
  | Connect client => final (connectToClient client s)
  | Disconnect client => final (disconnect client s)
  end.

Definition serve_all (s : state) (requests : list Request) : state :=
  foldl serve s requests.
End SyncKVServer.

(* ================================================================== *)
(** ** Vocabulary of the statements *)

(** A supply of mutation ids for concrete runs: "m", "mm", "mmm", ... *)
Fixpoint ids (n : nat) : string :=
  match n with
  | 0 => "m"
  | S n' => "m" +:+ ids n'
  end.

(** The messages a logger records, when there is one. *)
Definition server_logged (s : SyncKVServer.state) (message : string) : list ServerEvent :=
  if SyncKVServer.logger s then [ServerLogged message] else [].

(** The merge [pull] computes, [reduce((acc, patch) => ({...acc, ...patch}), {})]. *)
Definition merge (patches : list Patch) : Patch :=
  foldl (λ acc patch, assign acc patch) ∅ patches.

(** A batch of mutators against one server transaction, as a function of
    the registry: the transaction they leave, or the first exception. *)
Fixpoint run_batch (registry : gmap string AnyMutator) (batch : list Mutation.t)
    (tx : ServerTransaction.t) : Error + ServerTransaction.t :=
  match batch with
  | [] => inr tx
  | m :: rest =>
      match registry !! Mutation.key m with
      | None => inl (TypeError "this.mutators[key] is not a function")
      | Some mutator =>
          match run_prog (mutator (Mutation.args m)) tx with
          | Some tx' => run_batch registry rest tx'
          | None => inl MutatorError
          end
      end
  end.

(** The server as a push leaves it once the batch has run: the patch is on
    the log and the version is one more. *)
Definition pushed (p : Patch) (s : SyncKVServer.state) : SyncKVServer.state :=
  SyncKVServer.with_version (S (SyncKVServer.version s))
    (SyncKVServer.with_db (SyncKVServer.db s ++ [p]) s).

(** A request that is not a push from client [cid]. *)
Definition not_push_from (cid : string) (r : SyncKVServer.Request) : Prop :=
  match r with
  | SyncKVServer.Push cid' _ => cid' ≠ cid
  | _ => True
  end.

(** The messages a client's logger records, when there is one. *)
Definition client_logged (st : SyncKVClient.state) (message : string) : list ClientEvent :=
  if SyncKVClient.logger st then [Logged message] else [].

(** The calls [emit(key)] makes: every callback registered for the key, in
    registration order, with the client's value for the key. *)
Definition emit_calls (st : SyncKVClient.state) (k : string) : list ClientEvent :=
  (λ callback, Called k callback (SyncKVClient.get k st))
    <$> default [] (SyncKVClient.subscriptions st !! k).

(** The test [onPull] hands to [findIndex]. *)
Definition acked (lastMutationId : option string)
    (mutation : OptimisticMutationRecord.t) : bool :=
  bool_decide (Some (OptimisticMutationRecord.mutationId mutation) = lastMutationId).

(** The patch a record's mutator computes on a fresh transaction over the
    database [d], or the exception the call raises. *)
Definition rerun (registry : gmap string AnyMutator) (d : Database)
    (r : OptimisticMutationRecord.t) : Error + Patch :=
  match registry !! OptimisticMutationRecord.key r with
  | None => inl (TypeError "this.mutators[key] is not a function")
  | Some mutator =>
      match run_prog (mutator (OptimisticMutationRecord.args r))
              (Transaction.new d "") with
      | Some tx => inr (Transaction.patch tx)
      | None => inl MutatorError
      end
  end.

(** What identifies a pending mutation to the server: its id, the name of
    its mutator and its arguments. *)
Definition identity (r : OptimisticMutationRecord.t) : string * string * list Value :=
  (OptimisticMutationRecord.mutationId r, OptimisticMutationRecord.key r,
   OptimisticMutationRecord.args r).

(** [st'] differs from [st] at most in the ids drawn and in the patches of
    the queued records. *)
Definition rebased_from (st st' : SyncKVClient.state) : Prop :=
  SyncKVClient.mutators st' = SyncKVClient.mutators st
  ∧ SyncKVClient.logger st' = SyncKVClient.logger st
  ∧ SyncKVClient.db st' = SyncKVClient.db st
  ∧ SyncKVClient.clientId st' = SyncKVClient.clientId st
  ∧ SyncKVClient.cookie st' = SyncKVClient.cookie st
  ∧ SyncKVClient.subscriptions st' = SyncKVClient.subscriptions st
  ∧ SyncKVClient.pullQueued st' = SyncKVClient.pullQueued st
  ∧ identity <$> SyncKVClient.optimisticMutations st'
    = identity <$> SyncKVClient.optimisticMutations st.

(** The clients a trace shows poked, in the order of the calls. *)
Definition poked (t : list ServerEvent) : list ClientHandle :=
  omap (λ e, match e with ClientPoked h => Some h | _ => None end) t.

(** What a push of the test suite's [add] adds: the argument of a
    one-mutation batch, as a client sends it; nothing for another request. *)
Definition added (r : SyncKVServer.Request) : Z :=
  match r with
  | SyncKVServer.Push _ (Some [m]) =>
      match Mutation.args m with
      | [VNum x] => x
      | _ => 0%Z
      end
  | _ => 0%Z
  end.

(** A request of the test suite's scenarios: the push of one [add(x)], or a
    call that is not a push. *)
Definition add_or_no_push (r : SyncKVServer.Request) : Prop :=
  match r with
  | SyncKVServer.Push _ mutations =>
      ∃ id x, mutations = Some [Mutation.mk id "add" [VNum x]]
  | _ => True
  end.

(** [Number.isSafeInteger(n)]: below [2^53] in magnitude, where every
    integer is a double. *)
Definition safe (n : Z) : Prop := (Z.abs n < 2 ^ 53)%Z.

(** The running totals of the numbers a sequence of requests adds, from
    [start] on. *)
Fixpoint totals (start : Z) (rs : list SyncKVServer.Request) : list Z :=
  match rs with
  | [] => []
  | r :: rest => (start + added r)%Z :: totals (start + added r)%Z rest
  end.

(** The calls a client takes: from its user, from the server ([poke]) and
    from the promise of a pull ([onPull]); and a client taking a sequence of
    them, whether a call returns or throws. *)
Inductive ClientCall : Type :=
| Mutate (key : string) (args : list Value)
| Watch (key : string) (callback : Callback)
| Unsubscribe (key : string) (callback : Callback)
| Poke
| OnPull (response : PullResponse.t).

Definition client_call (st : SyncKVClient.state) (c : ClientCall) : SyncKVClient.state :=
  match c with
  | Mutate key args => final (SyncKVClient.mutate key args st)
  | Watch key callback => final (SyncKVClient.watch key callback st)
  | Unsubscribe key callback => final (SyncKVClient.unsubscribe key callback st)
  | Poke => final (SyncKVClient.poke st)
  | OnPull response => final (SyncKVClient.onPull response st)
  end.

Definition client_calls (st : SyncKVClient.state) (calls : list ClientCall) :
    SyncKVClient.state :=
  foldl client_call st calls.

(** The client's database is the merge of the patches its cookie counts:
    the first [cookie] patches of the server's log, none before the first
    pull. *)
Definition synced (st : SyncKVClient.state) (log : list Patch) : Prop :=
  SyncKVClient.db st = merge (take (default 0 (SyncKVClient.cookie st)) log).

(** What stays true of a client built with a registry, a logger and an id
    oracle, whatever calls it takes: the fields the constructor set are
    unchanged, [pullQueued] is false, and the ids of the queued records were
    drawn from the oracle at distinct draws, all made already. *)
Definition client_inv (registry : gmap string AnyMutator) (lg : bool)
    (rnd : nat → string) (st : SyncKVClient.state) : Prop :=
  SyncKVClient.mutators st = registry
  ∧ SyncKVClient.logger st = lg
  ∧ SyncKVClient.random st = rnd
  ∧ SyncKVClient.clientId st = rnd 0
  ∧ SyncKVClient.pullQueued st = false
  ∧ 1 ≤ SyncKVClient.drawn st
  ∧ ∃ ns, OptimisticMutationRecord.mutationId <$> SyncKVClient.optimisticMutations st
          = rnd <$> ns
          ∧ NoDup ns
          ∧ Forall (λ n, 1 ≤ n < SyncKVClient.drawn st) ns.

(** A mutator with an assertion, for the runs where a mutator throws:
    [(tx) => { if (tx.get("lock")) throw new Error("locked"); tx.set("x", 1) }]. *)
Definition guarded : AnyMutator := λ _,
  TxGet "lock" (λ lock,
    if truthy lock then TxThrow else TxSet "x" (VNum 1) TxRet).

(* ================================================================== *)
(** * Theorems *)

(** Unfolding the monad down to pairs. *)
Ltac eff_unfold :=
  unfold mbind, mret, Eff_bind, Eff_ret, eff_bind, eff_ret,
    gets, modify, perform, throw, completion, final, trace in *.

(* ------------------------------------------------------------------ *)
(** ** Client transactions *)

(** What [Transaction.get] computes: the patch's value when that value is
    truthy, the database's value in every other case. *)
Lemma Transaction_get_unfold (tx : Transaction.t) (k : string) :
  Transaction.get tx k =
    if truthy (prop (Transaction.patch tx) k)
    then prop (Transaction.patch tx) k
    else prop (Transaction.db tx) k.
Proof. reflexivity. Qed.

(** A truthy value written in the transaction is read back. *)
Lemma Transaction_get_set_truthy (tx : Transaction.t) (k : string) (v : Value) :
  truthy v = true → Transaction.get (Transaction.set tx k v) k = v.
Proof.
  intros Hv. unfold Transaction.get, Transaction.set, js_or, prop. simpl.
  rewrite lookup_insert_eq. simpl. by rewrite Hv.
Qed.

(** A key the transaction never wrote is read from the database. *)
Lemma Transaction_get_unset (tx : Transaction.t) (k : string) :
  Transaction.patch tx !! k = None →
  Transaction.get tx k = prop (Transaction.db tx) k.
Proof.
  intros Hk. unfold Transaction.get, js_or, prop. by rewrite Hk.
Qed.

(** A falsy value written in the transaction is not read back: the read
    falls through to the database. *)
Lemma Transaction_get_set_falsy (tx : Transaction.t) (k : string) (v : Value) :
  truthy v = false →
  Transaction.get (Transaction.set tx k v) k = prop (Transaction.db tx) k.
Proof.
  intros Hv. unfold Transaction.get, Transaction.set, js_or, prop. simpl.
  rewrite lookup_insert_eq. simpl. by rewrite Hv.
Qed.

(** C2. The claim: [tx.get(k)] returns the patch's value whenever [k] was set
    in the patch, falsy values included.  The code at
    [db = { k: 5 }], [tx.set("k", 0)]: [tx.get("k")] is [5], the database's
    value, not the [0] that was set; and with [null], [false] and [""] set it
    is [5] as well.  The server's transaction, on the same input, returns the
    value that was set. *)
Theorem Transaction_get_loses_falsy_write :
  let db : Database := {[ "k" := VNum 5 ]} in
  let tx := Transaction.new db "m" in
  Transaction.get (Transaction.set tx "k" (VNum 0)) "k" = VNum 5
  ∧ Transaction.get (Transaction.set tx "k" VNull) "k" = VNum 5
  ∧ Transaction.get (Transaction.set tx "k" (VBool false)) "k" = VNum 5
  ∧ Transaction.get (Transaction.set tx "k" (VStr "")) "k" = VNum 5
  ∧ ServerTransaction.get
      (ServerTransaction.set (ServerTransaction.new [db]) "k" (VNum 0)) "k"
    = VNum 0.
Proof.
  cbv zeta. split_and!.
  1-4: by rewrite Transaction_get_set_falsy.
  unfold ServerTransaction.get, ServerTransaction.set. simpl.
  by rewrite lookup_insert_eq.
Qed.

(* ------------------------------------------------------------------ *)
(** ** The client's reads *)

(** [first_hit] returns the value of the first patch of the list that has
    the key. *)
Lemma first_hit_Some (k : string) (ps : list Patch) (v : Value) :
  first_hit k ps = Some v ↔
  ∃ i p, ps !! i = Some p ∧ p !! k = Some v
         ∧ ∀ j q, (j < i)%nat → ps !! j = Some q → q !! k = None.
Proof.
  induction ps as [|p ps IH]; simpl.
  - split; [done | intros (i & q & Hi & _); by rewrite lookup_nil in Hi].
  - destruct (p !! k) as [w|] eqn:Hp.
    + split.
      * intros [= ->]. exists 0%nat, p. split_and!; [done | done | lia].
      * intros (i & q & Hi & Hq & Hfirst). destruct i as [|i].
        -- simpl in Hi. injection Hi as <-. congruence.
        -- specialize (Hfirst 0%nat p ltac:(lia) eq_refl). congruence.
    + rewrite IH. split.
      * intros (i & q & Hi & Hq & Hfirst). exists (S i), q.
        split_and!; [done | done |].
        intros [|j] q' Hj Hq'; simpl in Hq'.
        -- by injection Hq' as <-.
        -- apply (Hfirst j); [lia | done].
      * intros (i & q & Hi & Hq & Hfirst). destruct i as [|i].
        -- simpl in Hi. injection Hi as <-. congruence.
        -- exists i, q. split_and!; [done | done |].
           intros j q' Hj Hq'. apply (Hfirst (S j)); [lia | done].
Qed.

Lemma first_hit_None (k : string) (ps : list Patch) :
  first_hit k ps = None ↔ ∀ p, p ∈ ps → p !! k = None.
Proof.
  induction ps as [|p ps IH]; simpl.
  - split; [intros _ p Hp; by apply elem_of_nil in Hp | done].
  - destruct (p !! k) as [w|] eqn:Hp.
    + split; [done |]. intros H. specialize (H p (list_elem_of_here _ _)). congruence.
    + rewrite IH. split.
      * intros H q [->|Hq]%elem_of_cons; auto.
      * intros H q Hq. apply H. by apply list_elem_of_further.
Qed.

(** What [client.get] computes, in every state: the value of the OLDEST
    optimistic record whose patch has the key (the first in queue order);
    the database's value when no record has it; [undefined] when the
    database does not have it either. *)
Lemma client_get_oldest_first (k : string) (st : SyncKVClient.state) :
  let queue := SyncKVClient.optimisticMutations st in
  (∀ i r v,
     queue !! i = Some r →
     OptimisticMutationRecord.patch r !! k = Some v →
     (∀ j r', (j < i)%nat → queue !! j = Some r' →
        OptimisticMutationRecord.patch r' !! k = None) →
     SyncKVClient.get k st = v)
  ∧ ((∀ r, r ∈ queue → OptimisticMutationRecord.patch r !! k = None) →
     SyncKVClient.get k st = prop (SyncKVClient.db st) k)
  ∧ ((∀ r, r ∈ queue → OptimisticMutationRecord.patch r !! k = None) →
     SyncKVClient.db st !! k = None →
     SyncKVClient.get k st = VUndefined).
Proof.
  cbv zeta. unfold SyncKVClient.get. split_and!.
  - intros i r v Hi Hv Hfirst.
    assert (first_hit k (OptimisticMutationRecord.patch <$>
              SyncKVClient.optimisticMutations st) = Some v) as ->; [|done].
    apply first_hit_Some. exists i, (OptimisticMutationRecord.patch r).
    split_and!; [by rewrite list_lookup_fmap, Hi | done |].
    intros j q Hj Hq. rewrite list_lookup_fmap in Hq.
    destruct (SyncKVClient.optimisticMutations st !! j) as [r'|] eqn:Hr'; [|done].
    simpl in Hq. injection Hq as <-. by eapply Hfirst.
  - intros Hnone.
    assert (first_hit k (OptimisticMutationRecord.patch <$>
              SyncKVClient.optimisticMutations st) = None) as ->; [|done].
    apply first_hit_None. intros p (r & -> & Hr)%list_elem_of_fmap. auto.
  - intros Hnone Hdb.
    assert (first_hit k (OptimisticMutationRecord.patch <$>
              SyncKVClient.optimisticMutations st) = None) as ->.
    { apply first_hit_None. intros p (r & -> & Hr)%list_elem_of_fmap. auto. }
    unfold prop. by rewrite Hdb.
Qed.

(** C1. The claim: [client.get(K)] returns the value of the NEWEST optimistic
    record whose patch contains [K].  The code on a client with the test
    suite's [add] mutator, after [mutate.add(2)] and [mutate.add(3)] and
    before any acknowledgement: the queue holds the patches [{value: 2}] and
    [{value: 3}], oldest first, and [get("value")] is [2], the oldest record's
    value; the newest record's value is [3].  The server's [get] on the same
    two patches returns the newest, [3]. *)
Theorem client_get_returns_oldest_pending_value :
  let st0 := SyncKVClient.init {[ "add" := add ]} false ids in
  let st1 := final (SyncKVClient.mutate "add" [VNum 2] st0) in
  let st2 := final (SyncKVClient.mutate "add" [VNum 3] st1) in
  OptimisticMutationRecord.patch <$> SyncKVClient.optimisticMutations st2
    = [ {[ "value" := VNum 2 ]}; {[ "value" := VNum 3 ]} ]
  ∧ SyncKVClient.get "value" st2 = VNum 2
  ∧ SyncKVServer.get "value"
      (SyncKVServer.with_db
         (OptimisticMutationRecord.patch <$> SyncKVClient.optimisticMutations st2)
         (SyncKVServer.new ∅ None false))
    = VNum 3.
Proof. cbv zeta. split_and!; vm_compute; reflexivity. Qed.

(* ------------------------------------------------------------------ *)
(** ** Rejected pushes *)

(** A push without a mutation list throws before it writes anything. *)
Lemma push_missing_list (s : SyncKVServer.state) (cid : string) :
  SyncKVServer.push cid None s
  = (Throws (TypeError "mutations is not iterable"), s,
     server_logged s "Handling push").
Proof. destruct s as [ms [] d v t cs]; reflexivity. Qed.

(** A push with an empty mutation list runs no mutator, appends the empty
    patch, increments the version, and only then throws, reading the
    [mutationId] of a last mutation that does not exist. *)
Lemma push_empty_list (s : SyncKVServer.state) (cid : string) :
  SyncKVServer.push cid (Some []) s
  = (Throws (TypeError "mutations[mutations.length - 1] is undefined"),
     SyncKVServer.with_version (S (SyncKVServer.version s))
       (SyncKVServer.with_db (SyncKVServer.db s ++ [∅]) s),
     server_logged s "Handling push" ++ [DbPushed ∅]
       ++ server_logged s "New db" ++ [VersionIncremented]).
Proof. destruct s as [ms [] d v t cs]; reflexivity. Qed.

(** C5. The claim: a push with a missing or empty mutation list fails and
    leaves the log, the version and the table of last mutation ids unchanged.
    The code on a fresh server, [push("c", [])]: it throws, no mutator runs,
    the table is untouched and no client is poked, but the log has grown by
    an empty patch and the version is 1.  With the list missing
    ([undefined]) the same server is left as it was. *)
Theorem push_empty_list_grows_log :
  let s := SyncKVServer.new {[ "add" := add ]} None false in
  let empty := SyncKVServer.push "c" (Some []) s in
  let missing := SyncKVServer.push "c" None s in
  completion empty = Throws (TypeError "mutations[mutations.length - 1] is undefined")
  ∧ SyncKVServer.db s = []
  ∧ SyncKVServer.db (final empty) = [∅]
  ∧ SyncKVServer.version s = 0
  ∧ SyncKVServer.version (final empty) = 1
  ∧ SyncKVServer.lastMutationIds (final empty) = SyncKVServer.lastMutationIds s
  ∧ trace empty = [DbPushed ∅; VersionIncremented]
  ∧ completion missing = Throws (TypeError "mutations is not iterable")
  ∧ final missing = s.
Proof.
  cbv zeta. rewrite push_empty_list, push_missing_list.
  split_and!; reflexivity.
Qed.

(* ------------------------------------------------------------------ *)
(** ** Subscriptions *)

Lemma findIndex_None {A} (pred : A → bool) (l : list A) :
  findIndex pred l = None ↔ ∀ x, x ∈ l → pred x = false.
Proof.
  induction l as [|y l IH]; simpl.
  - split; [intros _ x Hx; by apply elem_of_nil in Hx | done].
  - destruct (pred y) eqn:Hy.
    + split; [done |]. intros H. specialize (H y (list_elem_of_here _ _)). congruence.
    + destruct (findIndex pred l) eqn:Hf; simpl.
      * split; [done |]. intros H.
        assert (Some n = None) as Habs; [| done].
        apply IH. intros x Hx. apply H. by apply list_elem_of_further.
      * split; [| done]. intros _ x [->|Hx]%elem_of_cons; [done |].
        by apply IH.
Qed.

Lemma findIndex_Some {A} (pred : A → bool) (l : list A) (i : nat) :
  findIndex pred l = Some i ↔
  ∃ x, l !! i = Some x ∧ pred x = true
       ∧ ∀ j y, j < i → l !! j = Some y → pred y = false.
Proof.
  revert i. induction l as [|y l IH]; intros i; simpl.
  - split; [done | intros (x & Hx & _); by rewrite lookup_nil in Hx].
  - destruct (pred y) eqn:Hy.
    + split.
      * intros [= <-]. exists y. split_and!; [done | done | lia].
      * intros (x & Hx & Hpx & Hfirst). destruct i as [|i]; [done |].
        specialize (Hfirst 0 y ltac:(lia) eq_refl). congruence.
    + split.
      * destruct (findIndex pred l) as [i'|]; [| done].
        simpl. intros [= <-].
        destruct (proj1 (IH i') eq_refl) as (x & Hx & Hpx & Hfirst).
        exists x. split_and!; [done | done |].
        intros [|j] z Hj Hz; simpl in Hz.
        -- by injection Hz as <-.
        -- apply (Hfirst j); [lia | done].
      * intros (x & Hx & Hpx & Hfirst). destruct i as [|i].
        -- simpl in Hx. injection Hx as <-. congruence.
        -- assert (findIndex pred l = Some i) as ->; [| done].
           apply IH. exists x. split_and!; [done | done |].
           intros j z Hj Hz. apply (Hfirst (S j)); [lia | done].
Qed.

(** [indexOf] finds the first occurrence, which [splice] then removes. *)
Lemma indexOf_Some (x : Callback) (l : list Callback) (i : nat) :
  indexOf x l = Some i →
  ∃ l1 l2, l = l1 ++ (x :: l2) ∧ (x ∉ l1) ∧ splice1 i l = l1 ++ l2.
Proof.
  unfold indexOf. intros (y & Hy & Hxy & Hfirst)%findIndex_Some.
  apply bool_decide_eq_true in Hxy as ->.
  exists (take i l), (drop (S i) l). split_and!.
  - by rewrite <- (take_drop_middle l i x) at 1.
  - intros (j & Hj)%list_elem_of_lookup_1.
    pose proof (lookup_lt_Some _ _ _ Hj) as Hlt.
    rewrite lookup_take_lt in Hj by (rewrite length_take in Hlt; lia).
    specialize (Hfirst j x ltac:(rewrite length_take in Hlt; lia) Hj).
    by apply bool_decide_eq_false in Hfirst.
  - reflexivity.
Qed.

Lemma indexOf_None (x : Callback) (l : list Callback) :
  indexOf x l = None ↔ x ∉ l.
Proof.
  unfold indexOf. rewrite findIndex_None. split.
  - intros H Hx. specialize (H x Hx). by apply bool_decide_eq_false in H.
  - intros H y Hy. apply bool_decide_eq_false. by intros ->.
Qed.

(** [watch] registers the callback after the ones already registered for
    the key, and returns its [unsubscribe]. *)
Lemma watch_run (k : string) (cb : Callback) (st : SyncKVClient.state) :
  SyncKVClient.watch k cb st
  = (Normal (SyncKVClient.unsubscribe k cb),
     SyncKVClient.with_subscriptions
       (<[k := default [] (SyncKVClient.subscriptions st !! k) ++ [cb]]>
          (SyncKVClient.subscriptions st)) st,
     []).
Proof.
  unfold SyncKVClient.watch. eff_unfold.
  by destruct (SyncKVClient.subscriptions st !! k).
Qed.

(** One call of [unsubscribe]: a no-op when the callback is not registered
    for the key, the removal of its first registration otherwise. *)
Lemma unsubscribe_run (k : string) (cb : Callback) (st : SyncKVClient.state) :
  completion (SyncKVClient.unsubscribe k cb st) = Normal tt
  ∧ trace (SyncKVClient.unsubscribe k cb st) = []
  ∧ (((∀ l, SyncKVClient.subscriptions st !! k = Some l → cb ∉ l)
      ∧ final (SyncKVClient.unsubscribe k cb st) = st)
     ∨ ∃ l1 l2,
         SyncKVClient.subscriptions st !! k = Some (l1 ++ (cb :: l2))
         ∧ (cb ∉ l1)
         ∧ final (SyncKVClient.unsubscribe k cb st)
           = SyncKVClient.with_subscriptions
               (<[k := l1 ++ l2]> (SyncKVClient.subscriptions st)) st).
Proof.
  unfold SyncKVClient.unsubscribe. eff_unfold.
  destruct (SyncKVClient.subscriptions st !! k) as [l|] eqn:Hk; simpl.
  - destruct (indexOf cb l) as [i|] eqn:Hi; simpl.
    + split_and!; [done | done |]. right.
      apply indexOf_Some in Hi as (l1 & l2 & -> & Hl1 & ->). by exists l1, l2.
    + split_and!; [done | done |]. left. split; [| done].
      intros l' [= <-]. by apply indexOf_None.
  - split_and!; [done | done |]. left. done.
Qed.

(** C9, as amended.  The function [watch(key, cb)] returns is
    [unsubscribe key cb].  Each call of it returns normally, calls no
    collaborator, and either finds no registration of [cb] under [key] and
    changes nothing, or removes exactly one registration, the first.  A second
    call of the same function leaves the registry as the first call left it
    when no further registration of [cb] under [key] remains, and removes one
    more registration when one remains. *)
Theorem unsubscribe_removes_first_registration
    (k : string) (cb : Callback) (st0 st : SyncKVClient.state) :
  completion (SyncKVClient.watch k cb st0) = Normal (SyncKVClient.unsubscribe k cb)
  ∧ let u := SyncKVClient.unsubscribe k cb in
    let once := u st in
    let twice := u (final once) in
    completion once = Normal tt ∧ trace once = []
    ∧ (((∀ l, SyncKVClient.subscriptions st !! k = Some l → cb ∉ l)
        ∧ final once = st ∧ final twice = final once)
       ∨ ∃ l1 l2,
           SyncKVClient.subscriptions st !! k = Some (l1 ++ (cb :: l2))
           ∧ (cb ∉ l1)
           ∧ SyncKVClient.subscriptions (final once)
             = <[k := l1 ++ l2]> (SyncKVClient.subscriptions st)
           ∧ (cb ∉ l2 → final twice = final once)
           ∧ (cb ∈ l2 → SyncKVClient.subscriptions (final twice) !! k
                         ≠ SyncKVClient.subscriptions (final once) !! k)).
Proof.
  split; [by rewrite watch_run |]. cbv zeta.
  destruct (unsubscribe_run k cb st) as (Hc & Ht & Hcases).
  split_and!; [done | done |].
  destruct Hcases as [[Hnone Hst] | (l1 & l2 & Hk & Hl1 & Hst)].
  - left. split_and!; [done | done |]. rewrite Hst.
    destruct (unsubscribe_run k cb st) as (_ & _ & [[_ ?] | (l1 & l2 & Hk & _)]);
      [congruence |].
    exfalso. apply (Hnone _ Hk). set_solver.
  - right. exists l1, l2. split_and!; [done | done | by rewrite Hst | |].
    + intros Hl2. rewrite Hst.
      set (st' := SyncKVClient.with_subscriptions _ st).
      destruct (unsubscribe_run k cb st') as (_ & _ & [[_ ?] | (m1 & m2 & Hk' & _)]);
        [done |].
      exfalso. subst st'. simpl in Hk'. rewrite lookup_insert_eq in Hk'.
      injection Hk' as Hl.
      assert (cb ∈ l1 ++ l2) as [?|?]%elem_of_app; [| done | done].
      rewrite Hl. set_solver.
    + intros Hl2. rewrite Hst.
      set (st' := SyncKVClient.with_subscriptions _ st).
      destruct (unsubscribe_run k cb st') as (_ & _ & [[Hnone _] | (m1 & m2 & Hk' & _ & ->)]).
      * exfalso. apply (Hnone (l1 ++ l2)); [| set_solver].
        subst st'. simpl. by rewrite lookup_insert_eq.
      * subst st'. simpl. rewrite !lookup_insert_eq. simpl in Hk'.
        rewrite lookup_insert_eq in Hk'. injection Hk' as ->.
        intros [= Heq]. apply (f_equal length) in Heq.
        rewrite !length_app in Heq. simpl in Heq. lia.
Qed.

(** The amended claim at a callback registered once, where the second call
    changes nothing. *)
Lemma unsubscribe_removes_first_registration_witness :
  let st0 := SyncKVClient.init ∅ false ids in
  let st := final (SyncKVClient.watch "k" 7 st0) in
  let u := SyncKVClient.unsubscribe "k" 7 in
  SyncKVClient.subscriptions st !! "k" = Some [7]
  ∧ SyncKVClient.subscriptions (final (u st)) !! "k" = Some []
  ∧ final (u (final (u st))) = final (u st).
Proof.
  cbv zeta.
  set (st := final (SyncKVClient.watch "k" 7 (SyncKVClient.init ∅ false ids))).
  assert (SyncKVClient.subscriptions st !! "k" = Some [7]) as Hk by reflexivity.
  destruct (unsubscribe_removes_first_registration "k" 7
              (SyncKVClient.init ∅ false ids) st)
    as (_ & _ & _ & [(Hnone & _) | (l1 & l2 & Hl & Hl1 & Hsubs & Hsame & _)]).
  - exfalso. apply (Hnone _ Hk). set_solver.
  - split_and!; [done | reflexivity |]. apply Hsame.
    pose proof (eq_trans (eq_sym Hk) Hl) as Hl'. injection Hl' as Hl'.
    clear Hl; rename Hl' into Hl.
    destruct l1 as [|x [|y l1]]; simpl in Hl.
    + injection Hl as <-. set_solver.
    + injection Hl as -> Hl. exfalso. set_solver.
    + discriminate.
Defined.

(** C9, the claim as stated, fails for a callback registered twice under one
    key: after [watch("k", cb)] twice, one call of the first returned
    function leaves one registration of [cb], two calls leave none. *)
Lemma unsubscribe_twice_removes_two_registrations :
  let w1 := SyncKVClient.watch "k" 7 (SyncKVClient.init ∅ false ids) in
  let st := final (SyncKVClient.watch "k" 7 (final w1)) in
  match completion w1 with
  | Normal u =>
      SyncKVClient.subscriptions st !! "k" = Some [7; 7]
      ∧ SyncKVClient.subscriptions (final (u st)) !! "k" = Some [7]
      ∧ SyncKVClient.subscriptions (final (u (final (u st)))) !! "k" = Some []
  | Throws _ => False
  end.
Proof. vm_compute. split_and!; reflexivity. Qed.

(* ------------------------------------------------------------------ *)
(** ** The server's pull *)

Lemma merge_snoc (patches : list Patch) (p : Patch) :
  merge (patches ++ [p]) = p ∪ merge patches.
Proof. unfold merge. by rewrite foldl_app. Qed.

(** Key by key, the merge holds the value of the last patch that has the
    key. *)
Lemma merge_lookup_Some (patches : list Patch) (k : string) (v : Value) :
  merge patches !! k = Some v ↔
  ∃ i p, patches !! i = Some p ∧ p !! k = Some v
         ∧ ∀ j q, i < j → patches !! j = Some q → q !! k = None.
Proof.
  induction patches as [|x patches IH] using rev_ind.
  - unfold merge. simpl. rewrite lookup_empty. split; [done |].
    intros (i & p & Hi & _). by rewrite lookup_nil in Hi.
  - rewrite merge_snoc. destruct (x !! k) as [w|] eqn:Hx.
    + rewrite (lookup_union_Some_l _ _ _ _ Hx). split.
      * intros [= ->]. exists (length patches), x. split_and!.
        -- by rewrite list_lookup_middle.
        -- done.
        -- intros j q Hj Hq. apply lookup_lt_Some in Hq.
           rewrite length_app in Hq. simpl in Hq. lia.
      * intros (i & p & Hi & Hp & Hlast).
        destruct (decide (i = length patches)) as [->|Hne].
        -- rewrite list_lookup_middle in Hi by done. injection Hi as <-. congruence.
        -- pose proof (lookup_lt_Some _ _ _ Hi) as Hlt.
           rewrite length_app in Hlt. simpl in Hlt.
           specialize (Hlast (length patches) x ltac:(lia)
                         ltac:(by rewrite list_lookup_middle)).
           congruence.
    + rewrite (lookup_union_r _ _ _ Hx), IH. split.
      * intros (i & p & Hi & Hp & Hlast). exists i, p. split_and!.
        -- by rewrite lookup_app_l by (by eapply lookup_lt_Some).
        -- done.
        -- intros j q Hj Hq.
           destruct (decide (j < length patches)) as [Hlt|Hge].
           ++ rewrite lookup_app_l in Hq by done. by eapply Hlast.
           ++ pose proof (lookup_lt_Some _ _ _ Hq) as Hlt.
              rewrite length_app in Hlt. simpl in Hlt.
              assert (j = length patches) as -> by lia.
              rewrite list_lookup_middle in Hq by done. by injection Hq as <-.
      * intros (i & p & Hi & Hp & Hlast).
        destruct (decide (i = length patches)) as [->|Hne].
        -- rewrite list_lookup_middle in Hi by done. injection Hi as <-. congruence.
        -- pose proof (lookup_lt_Some _ _ _ Hi) as Hlt.
           rewrite length_app in Hlt. simpl in Hlt.
           rewrite lookup_app_l in Hi by lia.
           exists i, p. split_and!; [done | done |].
           intros j q Hj Hq. apply (Hlast j); [done |].
           by rewrite lookup_app_l by (by eapply lookup_lt_Some).
Qed.

(** The same, read as the server's own newest-first scan. *)
Lemma merge_lookup (patches : list Patch) (k : string) :
  merge patches !! k = first_hit k (reverse patches).
Proof.
  induction patches as [|x patches IH] using rev_ind; [done |].
  rewrite merge_snoc, reverse_snoc. simpl.
  destruct (x !! k) as [w|] eqn:Hx.
  - by rewrite (lookup_union_Some_l _ _ _ _ Hx).
  - by rewrite (lookup_union_r _ _ _ Hx).
Qed.

(** [slice(cookie)] stops at the end of the log. *)
Lemma drop_min {A} (c : nat) (l : list A) : drop c l = drop (c `min` length l) l.
Proof.
  destruct (decide (c ≤ length l)) as [Hle|Hgt].
  - by rewrite Nat.min_l.
  - rewrite Nat.min_r by lia. by rewrite drop_all, drop_ge by lia.
Qed.

(** What a pull does, in full. *)
Lemma pull_run (s : SyncKVServer.state) (cid : string) (cookie : option nat) :
  let pending := SyncKVServer.lastMutationIds s !! cid in
  SyncKVServer.pull cid cookie s
  = (Normal (PullResponse.mk (length (SyncKVServer.db s))
               (merge (drop (default 0 cookie) (SyncKVServer.db s))) pending),
     (if truthy_id pending
      then SyncKVServer.with_lastMutationIds
             (delete cid (SyncKVServer.lastMutationIds s)) s
      else s),
     server_logged s "Received pull"
       ++ (if truthy_id pending then [LastMutationIdDeleted cid] else [])
       ++ server_logged s "patchesSinceCookie" ++ server_logged s "Sending").
Proof.
  destruct s as [ms lg d v t cs]. cbv zeta. unfold SyncKVServer.pull.
  unfold server_logged. simpl.
  destruct (truthy_id (t !! cid)) eqn:Hid, lg; eff_unfold; simpl;
    rewrite Hid; reflexivity.
Qed.

(* ------------------------------------------------------------------ *)
(** ** The server's push *)

(** Running the mutators writes nothing to the server and calls no one. *)
Lemma run_mutations_run (batch : list Mutation.t) (tx : ServerTransaction.t)
    (s : SyncKVServer.state) :
  SyncKVServer.run_mutations batch tx s
  = (match run_batch (SyncKVServer.mutators s) batch tx with
     | inr tx' => Normal tx'
     | inl e => Throws e
     end, s, []).
Proof.
  revert tx. induction batch as [|m batch IH]; intros tx; simpl; [done |].
  unfold SyncKVServer.call_mutator. eff_unfold.
  destruct (SyncKVServer.mutators s !! Mutation.key m) as [mutator|]; [| done].
  destruct (run_prog (mutator (Mutation.args m)) tx) as [tx'|]; [| done].
  rewrite IH. by destruct (run_batch _ batch tx').
Qed.

(** What a push of a list of mutations does, in full. *)
Lemma push_run (s : SyncKVServer.state) (cid : string) (batch : list Mutation.t) :
  SyncKVServer.push cid (Some batch) s
  = match run_batch (SyncKVServer.mutators s) batch
            (ServerTransaction.new (SyncKVServer.db s)) with
    | inl e => (Throws e, s, server_logged s "Handling push")
    | inr tx =>
        let p := ServerTransaction.patch tx in
        let writes :=
          server_logged s "Handling push" ++ [DbPushed p]
            ++ server_logged s "New db" ++ [VersionIncremented] in
        match last batch with
        | None =>
            (Throws (TypeError "mutations[mutations.length - 1] is undefined"),
             pushed p s, writes)
        | Some m =>
            (Normal tt,
             SyncKVServer.with_lastMutationIds
               (<[cid := Mutation.mutationId m]> (SyncKVServer.lastMutationIds s))
               (pushed p s),
             writes ++ [LastMutationIdSet cid (Mutation.mutationId m)]
               ++ (ClientPoked <$> SyncKVServer.clients s))
        end
    end.
Proof.
  assert (∀ (cs : list ClientHandle) (s' : SyncKVServer.state),
            for_each cs (λ client, perform (ClientPoked client)) s'
            = (Normal tt, s', ClientPoked <$> cs)) as Hpokes.
  { induction cs as [|c cs IH]; intros s'; simpl; [done |].
    unfold eff_bind, perform at 1. by rewrite IH. }
  unfold SyncKVServer.push, SyncKVServer.pokeAllClients,
    SyncKVServer.db_push, SyncKVServer.version_increment,
    SyncKVServer.lastMutationIds_set, SyncKVServer.log, server_logged, pushed.
  unfold mbind, mret, Eff_bind, Eff_ret.
  unfold eff_bind at 1. unfold gets at 1. unfold eff_bind at 1.
  destruct s as [ms lg d v t cs]; simpl.
  destruct lg; simpl.
  - unfold eff_bind at 1, gets at 1. simpl. unfold eff_bind at 1.
    rewrite run_mutations_run. simpl.
    destruct (run_batch ms batch (ServerTransaction.new d)) as [e|tx]; [done |].
    destruct (last batch) as [m|]; eff_unfold; simpl; [| done].
    rewrite Hpokes. simpl. reflexivity.
  - unfold eff_bind at 1, gets at 1. simpl. unfold eff_bind at 1.
    rewrite run_mutations_run. simpl.
    destruct (run_batch ms batch (ServerTransaction.new d)) as [e|tx]; [done |].
    destruct (last batch) as [m|]; eff_unfold; simpl; [| done].
    rewrite Hpokes. simpl. reflexivity.
Qed.

(** The version counts the patches of the log, in every state a server
    reaches from its construction. *)
Lemma serve_version (s : SyncKVServer.state) (r : SyncKVServer.Request) :
  SyncKVServer.version s = length (SyncKVServer.db s) →
  SyncKVServer.version (SyncKVServer.serve s r)
  = length (SyncKVServer.db (SyncKVServer.serve s r)).
Proof.
  intros Hinv. destruct r as [cid c | cid [batch|] | h | h]; simpl.
  - rewrite pull_run. cbv zeta. unfold final. simpl.
    by destruct (truthy_id _).
  - rewrite push_run.
    destruct (run_batch _ _ _) as [e|tx]; [done |]. cbv zeta.
    destruct (last batch); unfold final; simpl; rewrite length_app; simpl; lia.
  - by rewrite push_missing_list.
  - done.
  - unfold SyncKVServer.disconnect. eff_unfold.
    by destruct (indexOf h (SyncKVServer.clients s)).
Qed.

Lemma serve_all_version (s : SyncKVServer.state) (rs : list SyncKVServer.Request) :
  SyncKVServer.version s = length (SyncKVServer.db s) →
  SyncKVServer.version (SyncKVServer.serve_all s rs)
  = length (SyncKVServer.db (SyncKVServer.serve_all s rs)).
Proof.
  revert s. induction rs as [|r rs IH]; intros s Hinv; [done |].
  simpl. apply IH. by apply serve_version.
Qed.

Lemma new_version (ms : gmap string AnyMutator) (initialState : option Database)
    (lg : bool) :
  SyncKVServer.version (SyncKVServer.new ms initialState lg)
  = length (SyncKVServer.db (SyncKVServer.new ms initialState lg)).
Proof. reflexivity. Qed.

(** C4. A pull with cookie [c] on a server with log [L] returns the
    left-to-right overwrite merge of [L[min(c,|L|)..]]: key by key, the value
    of the last patch of that suffix that has the key, and no binding for a key
    none of them has.  The cookie it returns is [|L|], which is the [version]
    field in every state reached from the constructor.  With [c > |L|] the
    patch is empty.  The log is left as it was, and a pull without a cookie
    is a pull with cookie 0. *)
Theorem pull_merges_log_suffix (s : SyncKVServer.state) (cid : string) (c : nat) :
  let L := SyncKVServer.db s in
  let suffix := drop (c `min` length L) L in
  let out := SyncKVServer.pull cid (Some c) s in
  ∃ response,
    completion out = Normal response
    ∧ PullResponse.patch response = foldl (λ acc p, p ∪ acc) ∅ suffix
    ∧ (∀ k v,
         PullResponse.patch response !! k = Some v ↔
         ∃ i p, suffix !! i = Some p ∧ p !! k = Some v
                ∧ ∀ j q, i < j → suffix !! j = Some q → q !! k = None)
    ∧ PullResponse.cookie response = length L
    ∧ (∀ ms initialState lg requests,
         s = SyncKVServer.serve_all (SyncKVServer.new ms initialState lg) requests →
         PullResponse.cookie response = SyncKVServer.version s)
    ∧ (length L < c → PullResponse.patch response = ∅)
    ∧ SyncKVServer.db (final out) = L
    ∧ SyncKVServer.pull cid None s = SyncKVServer.pull cid (Some 0) s.
Proof.
  cbv zeta. rewrite pull_run. cbv zeta. eexists. split; [reflexivity |].
  simpl. rewrite <- drop_min. split_and!; [| | | | | | reflexivity].
  - reflexivity.
  - intros k v. apply merge_lookup_Some.
  - reflexivity.
  - intros ms initialState lg requests ->. symmetry.
    apply serve_all_version, new_version.
  - intros Hlt. by rewrite drop_ge by lia.
  - unfold final. simpl. by destruct (truthy_id _).
Qed.

(** Only a push from a client gives that client a pending id. *)
Lemma serve_keeps_none (cid : string) (s : SyncKVServer.state)
    (r : SyncKVServer.Request) :
  not_push_from cid r →
  SyncKVServer.lastMutationIds s !! cid = None →
  SyncKVServer.lastMutationIds (SyncKVServer.serve s r) !! cid = None.
Proof.
  intros Hr Hnone. destruct r as [cid' c | cid' [batch|] | h | h]; simpl in *.
  - rewrite pull_run. cbv zeta. unfold final. simpl.
    destruct (truthy_id _); [| done]. simpl.
    by apply lookup_delete_None; right.
  - rewrite push_run.
    destruct (run_batch _ _ _) as [e|tx]; [done |]. cbv zeta.
    destruct (last batch); unfold final; simpl; [| done].
    by rewrite lookup_insert_ne.
  - by rewrite push_missing_list.
  - done.
  - unfold SyncKVServer.disconnect. eff_unfold.
    by destruct (indexOf h (SyncKVServer.clients s)).
Qed.

Lemma serve_all_keeps_none (cid : string) (s : SyncKVServer.state)
    (rs : list SyncKVServer.Request) :
  Forall (not_push_from cid) rs →
  SyncKVServer.lastMutationIds s !! cid = None →
  SyncKVServer.lastMutationIds (SyncKVServer.serve_all s rs) !! cid = None.
Proof.
  revert s. induction rs as [|r rs IH]; intros s Hrs Hnone; [done |].
  apply Forall_cons in Hrs as [Hr Hrs]. simpl.
  apply IH; [done |]. by apply serve_keeps_none.
Qed.

(** What [pull] does with a pending id that is not the empty string.  A
    pull by client [cid] answers with the id pending for [cid] in the table,
    and with no id when none is pending; it removes that entry and leaves the
    other clients' entries alone; and the next pull by [cid], after any
    requests that are not pushes from [cid], answers with no id. *)
Theorem pull_consumes_pending_lastMutationId
    (s : SyncKVServer.state) (cid : string) (c c2 : option nat)
    (requests : list SyncKVServer.Request) :
  (∀ id, SyncKVServer.lastMutationIds s !! cid = Some id → id ≠ "") →
  Forall (not_push_from cid) requests →
  let first := SyncKVServer.pull cid c s in
  let second :=
    SyncKVServer.pull cid c2 (SyncKVServer.serve_all (final first) requests) in
  (∃ r1, completion first = Normal r1
         ∧ PullResponse.lastMutationId r1 = SyncKVServer.lastMutationIds s !! cid)
  ∧ SyncKVServer.lastMutationIds (final first) !! cid = None
  ∧ (∀ cid', cid' ≠ cid →
       SyncKVServer.lastMutationIds (final first) !! cid'
       = SyncKVServer.lastMutationIds s !! cid')
  ∧ (∃ r2, completion second = Normal r2
           ∧ PullResponse.lastMutationId r2 = None).
Proof.
  intros Hids Hrs. cbv zeta.
  assert (SyncKVServer.lastMutationIds (final (SyncKVServer.pull cid c s)) !! cid
          = None) as Hgone.
  { rewrite pull_run. cbv zeta. unfold final. simpl.
    destruct (SyncKVServer.lastMutationIds s !! cid) as [id|] eqn:Hid; simpl.
    - specialize (Hids id eq_refl).
      destruct (String.eqb_spec id ""); [done |]. simpl.
      apply lookup_delete_eq.
    - done. }
  split_and!.
  - rewrite pull_run. cbv zeta. by eexists.
  - done.
  - intros cid' Hne. rewrite pull_run. cbv zeta. unfold final. simpl.
    destruct (truthy_id _); [| done]. simpl. by rewrite lookup_delete_ne.
  - rewrite (pull_run (SyncKVServer.serve_all _ _)). cbv zeta.
    eexists. split; [reflexivity |]. simpl.
    by apply serve_all_keeps_none.
Qed.

(** A server on which client "c" has just pushed [add(2)] with id "m": the
    first pull answers "m", the second, after another client's push and
    pull, answers with no id. *)
Lemma pull_consumes_pending_lastMutationId_witness :
  let s := final (SyncKVServer.push "c" (Some [Mutation.mk "m" "add" [VNum 2]])
                    (SyncKVServer.new {[ "add" := add ]} None false)) in
  let others :=
    [SyncKVServer.Push "d" (Some [Mutation.mk "n" "add" [VNum 3]]);
     SyncKVServer.Pull "d" (Some 0)] in
  let first := SyncKVServer.pull "c" None s in
  let second :=
    SyncKVServer.pull "c" (Some 1) (SyncKVServer.serve_all (final first) others) in
  SyncKVServer.lastMutationIds s !! "c" = Some "m"
  ∧ (∃ r1, completion first = Normal r1 ∧ PullResponse.lastMutationId r1 = Some "m")
  ∧ SyncKVServer.lastMutationIds (final first) !! "c" = None
  ∧ (∃ r2, completion second = Normal r2 ∧ PullResponse.lastMutationId r2 = None).
Proof.
  cbv zeta.
  set (s := final (SyncKVServer.push "c" _ _)).
  set (others := [_; _]).
  assert (SyncKVServer.lastMutationIds s !! "c" = Some "m") as Hm
    by (vm_compute; reflexivity).
  assert (∀ id, SyncKVServer.lastMutationIds s !! "c" = Some id → id ≠ "") as Hids.
  { intros id Hid. rewrite Hm in Hid. by injection Hid as <-. }
  assert (Forall (not_push_from "c") others) as Hothers.
  { subst others. repeat constructor. simpl. discriminate. }
  destruct (pull_consumes_pending_lastMutationId s "c" None (Some 1) others
              Hids Hothers) as ((r1 & Hr1 & Hid1) & Hgone & _ & Hsecond).
  split_and!; [done | | done | done].
  exists r1. split; [done |]. by rewrite Hid1.
Defined.

(** C7. The claim: a pull answers with the id pending for the client and
    removes the entry, so that the client's next pull, with no push of its own
    in between, carries no id.  The code, on a server of the test suite after
    [push(cid, [{ mutationId: "", key: "add", args: [2] }])]: the table holds
    the empty string for [cid]; [if (lastMutationId)] is false of it, so the
    pull answers with it and deletes nothing, the server is left as it was,
    and the next pull answers with it again. *)
Theorem pull_keeps_empty_lastMutationId
    (cid : string) (c c2 : option nat) (lg : bool) :
  let s0 := SyncKVServer.new {[ "add" := add ]} None lg in
  let s := final (SyncKVServer.push cid (Some [Mutation.mk "" "add" [VNum 2]]) s0) in
  let first := SyncKVServer.pull cid c s in
  let second := SyncKVServer.pull cid c2 (final first) in
  SyncKVServer.lastMutationIds s !! cid = Some ""
  ∧ (∃ r1, completion first = Normal r1
           ∧ PullResponse.lastMutationId r1 = Some "")
  ∧ (∀ cid', LastMutationIdDeleted cid' ∉ trace first)
  ∧ final first = s
  ∧ (∃ r2, completion second = Normal r2
           ∧ PullResponse.lastMutationId r2 = Some "").
Proof.
  cbv zeta.
  set (s := final (SyncKVServer.push cid _ _)).
  assert (SyncKVServer.lastMutationIds s !! cid = Some "") as Hpending.
  { subst s. rewrite push_run.
    change (SyncKVServer.mutators (SyncKVServer.new {[ "add" := add ]} None lg))
      with ({[ "add" := add ]} : gmap string AnyMutator).
    cbn [run_batch Mutation.key Mutation.args].
    unfold AnyMutator in *. rewrite lookup_singleton_eq.
    match goal with |- context [run_prog ?body ?tx] =>
      assert (run_prog body tx
              = Some (ServerTransaction.mk [] {[ "value" := VNum 2 ]})) as ->
        by (vm_compute; reflexivity)
    end.
    cbn [last]. unfold final. cbn [fst snd SyncKVServer.lastMutationIds
      SyncKVServer.with_lastMutationIds Mutation.mutationId].
    apply lookup_insert_eq. }
  assert (final (SyncKVServer.pull cid c s) = s) as Hsame.
  { rewrite pull_run. cbv zeta. by rewrite Hpending. }
  split_and!.
  - exact Hpending.
  - rewrite pull_run. cbv zeta. eexists. split; [reflexivity |]. exact Hpending.
  - intros cid'. rewrite pull_run. cbv zeta. rewrite Hpending.
    unfold trace, server_logged. simpl.
    destruct (SyncKVServer.logger s); simpl; intros Hin;
      repeat (apply elem_of_cons in Hin as [Hin|Hin]; [discriminate |]);
      by apply elem_of_nil in Hin.
  - exact Hsame.
  - rewrite Hsame, pull_run. cbv zeta. eexists. split; [reflexivity |].
    exact Hpending.
Qed.

(* ------------------------------------------------------------------ *)
(** ** Order of a push's writes and pokes *)

(** C8. Whenever a push pokes a client, the push has by then appended the
    batch's patch to the log, incremented the version and recorded the id of
    the batch's last mutation for the pushing client, in that order; what
    follows the first poke is only pokes; and the server is left with those
    three writes made. *)
Theorem push_writes_precede_pokes
    (s : SyncKVServer.state) (cid : string)
    (mutations : option (list Mutation.t)) (j : nat) (h : ClientHandle) :
  let out := SyncKVServer.push cid mutations s in
  trace out !! j = Some (ClientPoked h) →
  ∃ batch tx m i1 i2 i3,
    mutations = Some batch
    ∧ run_batch (SyncKVServer.mutators s) batch
        (ServerTransaction.new (SyncKVServer.db s)) = inr tx
    ∧ last batch = Some m
    ∧ i1 < i2 ∧ i2 < i3 ∧ i3 < j
    ∧ trace out !! i1 = Some (DbPushed (ServerTransaction.patch tx))
    ∧ trace out !! i2 = Some VersionIncremented
    ∧ trace out !! i3 = Some (LastMutationIdSet cid (Mutation.mutationId m))
    ∧ (∀ j' e, j ≤ j' → trace out !! j' = Some e → ∃ h', e = ClientPoked h')
    ∧ SyncKVServer.db (final out) = SyncKVServer.db s ++ [ServerTransaction.patch tx]
    ∧ SyncKVServer.version (final out) = S (SyncKVServer.version s)
    ∧ SyncKVServer.lastMutationIds (final out) !! cid = Some (Mutation.mutationId m).
Proof.
  cbv zeta. destruct mutations as [batch|].
  2:{ rewrite push_missing_list. unfold trace, server_logged. simpl.
      destruct (SyncKVServer.logger s); destruct j as [|[|j]]; done. }
  rewrite push_run.
  destruct (run_batch _ _ _) as [e|tx] eqn:Hrun.
  { unfold trace, server_logged. simpl.
    destruct (SyncKVServer.logger s); destruct j as [|[|j]]; done. }
  cbv zeta. destruct (last batch) as [m|] eqn:Hlast.
  2:{ unfold trace, server_logged. simpl.
      destruct (SyncKVServer.logger s); destruct j as [|[|[|[|[|j]]]]]; done. }
  unfold trace, final, server_logged. simpl.
  assert (∀ (cs : list ClientHandle) n e,
            (ClientPoked <$> cs) !! n = Some e → ∃ h', e = ClientPoked h') as Hpokes.
  { intros cs n e Hn. rewrite list_lookup_fmap in Hn.
    destruct (cs !! n) as [h'|]; [| done]. injection Hn as <-. by exists h'. }
  destruct (SyncKVServer.logger s); simpl; intros Hj.
  - destruct j as [|[|[|[|[|j]]]]]; try done.
    exists batch, tx, m, 1, 3, 4.
    split_and!; try done; try lia.
    + intros j' e Hle He. destruct j' as [|[|[|[|[|j']]]]]; try lia.
      simpl in He. by eapply Hpokes.
    + by rewrite lookup_insert_eq.
  - destruct j as [|[|[|j]]]; try done.
    exists batch, tx, m, 0, 1, 2.
    split_and!; try done; try lia.
    + intros j' e Hle He. destruct j' as [|[|[|j']]]; try lia.
      simpl in He. by eapply Hpokes.
    + by rewrite lookup_insert_eq.
Qed.

(** C8 at a server with one connected client, on the push of [add(2)]: the
    poke is the fourth event, after the three writes. *)
Lemma push_writes_precede_pokes_witness :
  let s := final (SyncKVServer.connectToClient 4
                    (SyncKVServer.new {[ "add" := add ]} None false)) in
  let out := SyncKVServer.push "c" (Some [Mutation.mk "m" "add" [VNum 2]]) s in
  trace out
  = [DbPushed {[ "value" := VNum 2 ]}; VersionIncremented;
     LastMutationIdSet "c" "m"; ClientPoked 4]
  ∧ ∃ i1 i2 i3,
      i1 < i2 ∧ i2 < i3 ∧ i3 < 3
      ∧ trace out !! i1 = Some (DbPushed {[ "value" := VNum 2 ]})
      ∧ trace out !! i2 = Some VersionIncremented
      ∧ trace out !! i3 = Some (LastMutationIdSet "c" "m").
Proof.
  cbv zeta.
  set (s := final (SyncKVServer.connectToClient 4 _)).
  set (batch := [Mutation.mk "m" "add" [VNum 2]]).
  assert (trace (SyncKVServer.push "c" (Some batch) s)
          = [DbPushed {[ "value" := VNum 2 ]}; VersionIncremented;
             LastMutationIdSet "c" "m"; ClientPoked 4]) as Htrace
    by (vm_compute; reflexivity).
  split; [done |].
  assert (trace (SyncKVServer.push "c" (Some batch) s) !! 3 = Some (ClientPoked 4))
    as Hpoke by (by rewrite Htrace).
  destruct (push_writes_precede_pokes s "c" (Some batch) 3 4 Hpoke)
    as (batch' & tx & m & i1 & i2 & i3 & Hb & Hrun & Hlast & H12 & H23 & H3j
        & H1 & H2 & H3 & _).
  injection Hb as <-. injection Hlast as <-.
  exists i1, i2, i3. split_and!; try done.
  rewrite H1. f_equal. f_equal.
  assert (run_batch (SyncKVServer.mutators s) batch
            (ServerTransaction.new (SyncKVServer.db s))
          = inr (ServerTransaction.mk [] {[ "value" := VNum 2 ]})) as Hrun'
    by (vm_compute; reflexivity).
  rewrite Hrun' in Hrun. by injection Hrun as <-.
Defined.

(* ------------------------------------------------------------------ *)
(** ** Stepping through client code *)

Section bind_rules.
Context {St Ev : Type}.
Implicit Types s : St.

Lemma bind_run {A B} (m : Eff St Ev A) (k : A → Eff St Ev B) s :
  (m ≫= k) s
  = match m s with
    | (Normal a, s1, t1) => let '(r, s2, t2) := k a s1 in (r, s2, t1 ++ t2)
    | (Throws e, s1, t1) => (Throws e, s1, t1)
    end.
Proof. reflexivity. Qed.

Lemma bind_ret {A B} (a : A) (k : A → Eff St Ev B) s : (mret a ≫= k) s = k a s.
Proof.
  unfold mbind, mret, Eff_bind, Eff_ret, eff_bind, eff_ret.
  by destruct (k a s) as [[??]?].
Qed.

Lemma bind_gets {A B} (f : St → A) (k : A → Eff St Ev B) s :
  (gets f ≫= k) s = k (f s) s.
Proof.
  unfold mbind, Eff_bind, eff_bind, gets. by destruct (k (f s) s) as [[??]?].
Qed.

Lemma bind_modify {B} (f : St → St) (k : unit → Eff St Ev B) s :
  (modify f ≫= k) s = k tt (f s).
Proof.
  unfold mbind, Eff_bind, eff_bind, modify. by destruct (k tt (f s)) as [[??]?].
Qed.

Lemma for_each_perform {A} (l : list A) (f : A → Ev) s :
  for_each l (λ x, perform (f x)) s = (Normal tt, s, f <$> l).
Proof.
  induction l as [|x l IH]; simpl; [done |].
  unfold eff_bind, perform at 1. by rewrite IH.
Qed.
End bind_rules.

Lemma log_run (message : string) (st : SyncKVClient.state) :
  SyncKVClient.log message st = (Normal tt, st, client_logged st message).
Proof.
  unfold SyncKVClient.log, client_logged. rewrite bind_gets.
  by destruct (SyncKVClient.logger st).
Qed.

Lemma bind_log {B} (message : string) (k : unit → SyncKVClient.M B)
    (st : SyncKVClient.state) :
  (SyncKVClient.log message ≫= k) st
  = let '(r, st', t) := k tt st in (r, st', client_logged st message ++ t).
Proof. by rewrite bind_run, log_run. Qed.

Lemma randomId_run (st : SyncKVClient.state) :
  SyncKVClient.randomId st
  = (Normal (SyncKVClient.random st (SyncKVClient.drawn st)),
     SyncKVClient.with_drawn (S (SyncKVClient.drawn st)) st, []).
Proof. reflexivity. Qed.

Lemma emit_run (k : string) (st : SyncKVClient.state) :
  SyncKVClient.emit k st = (Normal tt, st, emit_calls st k).
Proof.
  unfold SyncKVClient.emit, emit_calls. rewrite !bind_gets.
  destruct (SyncKVClient.subscriptions st !! k) as [cbs|]; simpl; [| done].
  by rewrite for_each_perform.
Qed.

Lemma for_each_emit_run (ks : list string) (st : SyncKVClient.state) :
  for_each ks SyncKVClient.emit st = (Normal tt, st, ks ≫= emit_calls st).
Proof.
  induction ks as [|k ks IH]; simpl; [done |].
  unfold eff_bind. by rewrite emit_run, IH.
Qed.

(** The id a transaction drew has no part in what its mutator computes. *)
Lemma run_prog_mutationId (p : TxProg) (d : Database) (id id' : string) (pt : Patch) :
  Transaction.patch <$> run_prog p (Transaction.mk d id pt)
  = Transaction.patch <$> run_prog p (Transaction.mk d id' pt).
Proof.
  revert pt. induction p as [|k cont IH|k v next IH|]; intros pt; simpl.
  - done.
  - apply (IH (Transaction.get (Transaction.mk d id pt) k)).
  - apply IH.
  - done.
Qed.

Lemma call_mutator_run (key : string) (args : list Value) (d : Database)
    (id : string) (st : SyncKVClient.state) :
  SyncKVClient.call_mutator key args (Transaction.new d id) st
  = (match SyncKVClient.mutators st !! key with
     | None => Throws (TypeError "this.mutators[key] is not a function")
     | Some mutator =>
         match run_prog (mutator args) (Transaction.new d id) with
         | Some tx => Normal tx
         | None => Throws MutatorError
         end
     end, st, []).
Proof.
  unfold SyncKVClient.call_mutator. rewrite bind_gets.
  destruct (SyncKVClient.mutators st !! key) as [mutator|]; [| done].
  by destruct (run_prog _ _).
Qed.

(** One turn of the rebase loop. *)
Lemma rebase_at_run (i : nat) (patchToEmit : Patch) (st : SyncKVClient.state)
    (r : OptimisticMutationRecord.t) :
  SyncKVClient.optimisticMutations st !! i = Some r →
  SyncKVClient.rebase_at i patchToEmit st
  = match rerun (SyncKVClient.mutators st) (SyncKVClient.db st) r with
    | inr p =>
        (Normal (assign patchToEmit p),
         SyncKVClient.with_optimisticMutations
           (<[i := OptimisticMutationRecord.set_patch r p]>
              (SyncKVClient.optimisticMutations st))
           (SyncKVClient.with_drawn (S (SyncKVClient.drawn st)) st),
         [])
    | inl e => (Throws e, SyncKVClient.with_drawn (S (SyncKVClient.drawn st)) st, [])
    end.
Proof.
  intros Hi. unfold SyncKVClient.rebase_at, rerun.
  rewrite bind_gets, Hi, bind_gets, bind_run, randomId_run.
  rewrite bind_run, call_mutator_run. simpl SyncKVClient.mutators.
  destruct (SyncKVClient.mutators st !! OptimisticMutationRecord.key r)
    as [mutator|]; [| done].
  pose proof (run_prog_mutationId (mutator (OptimisticMutationRecord.args r))
                (SyncKVClient.db st)
                (SyncKVClient.random st (SyncKVClient.drawn st)) "" ∅) as Hid.
  unfold Transaction.new.
  destruct (run_prog _ (Transaction.mk _ (SyncKVClient.random _ _) _)) as [tx|],
    (run_prog _ (Transaction.mk _ "" _)) as [tx'|]; simpl in Hid; try done.
  injection Hid as ->. rewrite bind_modify. reflexivity.
Qed.

Lemma rebased_from_refl (st : SyncKVClient.state) : rebased_from st st.
Proof. unfold rebased_from. by split_and!. Qed.

Lemma rebased_from_trans (st1 st2 st3 : SyncKVClient.state) :
  rebased_from st1 st2 → rebased_from st2 st3 → rebased_from st1 st3.
Proof.
  unfold rebased_from. intros (?&?&?&?&?&?&?&?) (?&?&?&?&?&?&?&?).
  split_and!; congruence.
Qed.

(** A turn of the rebase loop calls no collaborator and, whether the mutator
    returns or throws, touches nothing but the patch of the record at [i]. *)
Lemma rebase_at_frame (i : nat) (patchToEmit : Patch) (st : SyncKVClient.state) :
  trace (SyncKVClient.rebase_at i patchToEmit st) = []
  ∧ rebased_from st (final (SyncKVClient.rebase_at i patchToEmit st)).
Proof.
  destruct (SyncKVClient.optimisticMutations st !! i) as [r|] eqn:Hi.
  - rewrite (rebase_at_run _ _ _ _ Hi).
    destruct (rerun _ _ r) as [e|p]; unfold trace, final; simpl.
    + split; [done |]. unfold rebased_from. simpl. by split_and!.
    + split; [done |]. unfold rebased_from. simpl. split_and!; try done.
      rewrite list_fmap_insert. apply list_insert_id.
      by rewrite list_lookup_fmap, Hi.
  - unfold SyncKVClient.rebase_at. rewrite bind_gets, Hi.
    split; [done |]. apply rebased_from_refl.
Qed.

Lemma rebase_loop_frame (indices : list nat) (patchToEmit : Patch)
    (st : SyncKVClient.state) :
  trace (SyncKVClient.rebase_loop indices patchToEmit st) = []
  ∧ rebased_from st (final (SyncKVClient.rebase_loop indices patchToEmit st)).
Proof.
  revert patchToEmit st.
  induction indices as [|i indices IH]; intros patchToEmit st; simpl.
  - split; [done |]. apply rebased_from_refl.
  - rewrite bind_run.
    destruct (rebase_at_frame i patchToEmit st) as [Ht Hf].
    destruct (SyncKVClient.rebase_at i patchToEmit st) as [[[p|e] st1] t1];
      unfold trace, final in Ht, Hf; simpl in Ht, Hf; subst t1.
    + destruct (IH p st1) as [Ht' Hf'].
      destruct (SyncKVClient.rebase_loop indices p st1) as [[c st2] t2].
      unfold trace, final in *; simpl in *. subst t2.
      split; [done |]. by eapply rebased_from_trans.
    + by split.
Qed.

(** The rebase loop over a stretch [rs] of the queue whose mutators all
    return: every record of the stretch gets its freshly computed patch, and
    the patch to emit absorbs those patches in queue order. *)
Lemma rebase_loop_run (registry : gmap string AnyMutator) (d : Database)
    (rs : list OptimisticMutationRecord.t) (ps : list Patch) :
  Forall2 (λ r p, rerun registry d r = inr p) rs ps →
  ∀ (pre post : list OptimisticMutationRecord.t) (patchToEmit : Patch)
    (st : SyncKVClient.state),
    SyncKVClient.mutators st = registry →
    SyncKVClient.db st = d →
    SyncKVClient.optimisticMutations st = pre ++ rs ++ post →
    SyncKVClient.rebase_loop (seq (length pre) (length rs)) patchToEmit st
    = (Normal (foldl assign patchToEmit ps),
       SyncKVClient.with_optimisticMutations
         (pre ++ zip_with OptimisticMutationRecord.set_patch rs ps ++ post)
         (SyncKVClient.with_drawn (SyncKVClient.drawn st + length rs) st),
       []).
Proof.
  induction 1 as [|r p rs ps Hr Hrs IH];
    intros pre post patchToEmit st Hms Hdb Hq; simpl.
  - unfold mret, Eff_ret, eff_ret. rewrite Nat.add_0_r.
    destruct st; simpl in *. by rewrite Hq.
  - rewrite bind_run.
    rewrite (rebase_at_run _ _ _ r)
      by (rewrite Hq; by apply (list_lookup_middle pre (rs ++ post) r)).
    rewrite Hms, Hdb, Hr.
    set (st1 := SyncKVClient.with_optimisticMutations _ _).
    assert (SyncKVClient.optimisticMutations st1
            = (pre ++ [OptimisticMutationRecord.set_patch r p]) ++ rs ++ post) as Hq1.
    { subst st1. simpl. rewrite Hq.
      rewrite insert_app_r_alt by lia. rewrite Nat.sub_diag. simpl.
      by rewrite <- app_assoc. }
    specialize (IH (pre ++ [OptimisticMutationRecord.set_patch r p]) post
                  (assign patchToEmit p) st1 Hms Hdb Hq1).
    rewrite length_app in IH. simpl in IH. rewrite Nat.add_1_r in IH.
    rewrite IH. simpl. f_equal. f_equal.
    subst st1. clear IH Hq1.
    unfold SyncKVClient.with_drawn, SyncKVClient.with_optimisticMutations.
    simpl. f_equal.
    + by rewrite <- app_assoc.
    + lia.
Qed.

(** [onPull] on a response without a truthy [lastMutationId]. *)
Lemma onPull_initial (resp : PullResponse.t) (st : SyncKVClient.state) :
  truthy_id (PullResponse.lastMutationId resp) = false →
  SyncKVClient.onPull resp st
  = let st1 :=
      SyncKVClient.with_cookie (Some (PullResponse.cookie resp))
        (SyncKVClient.with_db
           (assign (SyncKVClient.db st) (PullResponse.patch resp)) st) in
    (Normal tt,
     (if SyncKVClient.pullQueued st
      then SyncKVClient.with_pullQueued false st1 else st1),
     client_logged st "Received pull"
       ++ (keys (PullResponse.patch resp) ≫= emit_calls st1)
       ++ (if SyncKVClient.pullQueued st
           then client_logged st "Got poked"
                  ++ [ServerPull (SyncKVClient.clientId st)
                        (Some (PullResponse.cookie resp))]
           else [])).
Proof.
  intros Hid. unfold SyncKVClient.onPull. cbv zeta.
  rewrite bind_log, Hid. cbn [negb]. cbv beta iota.
  rewrite !bind_modify, bind_run, for_each_emit_run, bind_gets.
  change (SyncKVClient.pullQueued (SyncKVClient.with_cookie _ _))
    with (SyncKVClient.pullQueued st).
  destruct (SyncKVClient.pullQueued st); cbv beta iota.
  - rewrite bind_modify. unfold SyncKVClient.poke.
    rewrite bind_log, bind_gets.
    change (SyncKVClient.cookie (SyncKVClient.with_pullQueued _ _))
      with (Some (PullResponse.cookie resp)).
    cbv beta iota. rewrite bind_gets. reflexivity.
  - unfold mret, Eff_ret, eff_ret. reflexivity.
Qed.

(** [onPull] on an acknowledgement of a mutation the queue does not hold. *)
Lemma onPull_unknown (resp : PullResponse.t) (st : SyncKVClient.state) :
  truthy_id (PullResponse.lastMutationId resp) = true →
  findIndex (acked (PullResponse.lastMutationId resp))
    (SyncKVClient.optimisticMutations st) = None →
  SyncKVClient.onPull resp st
  = (Normal tt, st,
     client_logged st "Received pull" ++ client_logged st "Optimistic mutations").
Proof.
  intros Hid Hfind. unfold SyncKVClient.onPull. cbv zeta.
  rewrite bind_log, Hid. cbn [negb]. cbv beta iota.
  fold (acked (PullResponse.lastMutationId resp)).
  by rewrite bind_gets, Hfind, log_run.
Qed.

(** [onPull] on an acknowledgement of the record at [index]. *)
Lemma onPull_ack (resp : PullResponse.t) (st : SyncKVClient.state) (index : nat) :
  truthy_id (PullResponse.lastMutationId resp) = true →
  findIndex (acked (PullResponse.lastMutationId resp))
    (SyncKVClient.optimisticMutations st) = Some index →
  SyncKVClient.onPull resp st
  = let st1 :=
      SyncKVClient.with_db
        (assign (SyncKVClient.db st) (PullResponse.patch resp)) st in
    match SyncKVClient.rebase_loop
            (seq (index + 1)
               (length (SyncKVClient.optimisticMutations st) - (index + 1)))
            (PullResponse.patch resp) st1 with
    | (Normal patchToEmit, st2, t) =>
        let st3 :=
          SyncKVClient.with_cookie (Some (PullResponse.cookie resp))
            (SyncKVClient.with_optimisticMutations
               (drop (index + 1) (SyncKVClient.optimisticMutations st2)) st2) in
        (Normal tt, st3,
         client_logged st "Received pull" ++ t ++ client_logged st2 "client db"
           ++ (keys patchToEmit ≫= emit_calls st3))
    | (Throws e, st2, t) => (Throws e, st2, client_logged st "Received pull" ++ t)
    end.
Proof.
  intros Hid Hfind. unfold SyncKVClient.onPull. cbv zeta.
  rewrite bind_log, Hid. cbn [negb]. cbv beta iota.
  fold (acked (PullResponse.lastMutationId resp)).
  rewrite bind_gets, Hfind, bind_modify, bind_run.
  destruct (SyncKVClient.rebase_loop _ _ _) as [[[pte|e] st2] t]; [| reflexivity].
  rewrite bind_modify, bind_log, bind_modify, for_each_emit_run.
  reflexivity.
Qed.

(* ------------------------------------------------------------------ *)
(** ** Acknowledgements the client does not recognise *)

Lemma truthy_id_Some (M : string) : M ≠ "" → truthy_id (Some M) = true.
Proof. intros HM. simpl. by destruct (String.eqb_spec M ""). Qed.

(** What [onPull] does with an unknown id that is not the empty string.  On
    a response whose [lastMutationId] names no record of the queue, [onPull]
    returns normally and leaves the client as it was: database, cookie, queue
    and every other field.  It calls no subscription callback; all it does is
    log, "Received pull" and then "Optimistic mutations", when a logger is
    there. *)
Theorem onPull_unknown_ack_changes_nothing
    (resp : PullResponse.t) (st : SyncKVClient.state) (M : string) :
  PullResponse.lastMutationId resp = Some M →
  M ≠ "" →
  (∀ r, r ∈ SyncKVClient.optimisticMutations st →
        OptimisticMutationRecord.mutationId r ≠ M) →
  let out := SyncKVClient.onPull resp st in
  completion out = Normal tt
  ∧ final out = st
  ∧ trace out
    = client_logged st "Received pull" ++ client_logged st "Optimistic mutations"
  ∧ (∀ k callback v, Called k callback v ∉ trace out).
Proof.
  intros HM Hne Hnone. cbv zeta.
  rewrite onPull_unknown.
  - split_and!; try done. intros k cb v. unfold trace, client_logged. simpl.
    destruct (SyncKVClient.logger st); simpl; intros Hin;
      repeat (apply elem_of_cons in Hin as [Hin|Hin]; [discriminate |]);
      by apply elem_of_nil in Hin.
  - rewrite HM. by apply truthy_id_Some.
  - apply findIndex_None. intros r Hr. unfold acked.
    apply bool_decide_eq_false. rewrite HM. intros [= Heq].
    by apply (Hnone r Hr).
Qed.

(** A client with one pending [add(2)], whose id is "mm", receiving an
    acknowledgement of "zz". *)
Lemma onPull_unknown_ack_changes_nothing_witness :
  let st0 := SyncKVClient.init {[ "add" := add ]} true ids in
  let st := final (SyncKVClient.mutate "add" [VNum 2] st0) in
  let out := SyncKVClient.onPull (PullResponse.mk 1 {[ "value" := VNum 9 ]} (Some "zz")) st in
  OptimisticMutationRecord.mutationId <$> SyncKVClient.optimisticMutations st = ["mm"]
  ∧ completion out = Normal tt
  ∧ final out = st
  ∧ trace out = [Logged "Received pull"; Logged "Optimistic mutations"].
Proof.
  cbv zeta.
  set (st := final (SyncKVClient.mutate "add" [VNum 2] _)).
  set (resp := PullResponse.mk 1 _ (Some "zz")).
  assert (OptimisticMutationRecord.mutationId <$> SyncKVClient.optimisticMutations st
          = ["mm"]) as Hids by (vm_compute; reflexivity).
  assert (∀ r, r ∈ SyncKVClient.optimisticMutations st →
               OptimisticMutationRecord.mutationId r ≠ "zz") as Hnone.
  { intros r Hr Heq.
    assert (OptimisticMutationRecord.mutationId r
            ∈ OptimisticMutationRecord.mutationId <$> SyncKVClient.optimisticMutations st)
      as Hin by (by apply list_elem_of_fmap_2).
    rewrite Hids, Heq in Hin.
    apply elem_of_cons in Hin as [Hin|Hin]; [discriminate |].
    by apply elem_of_nil in Hin. }
  destruct (onPull_unknown_ack_changes_nothing resp st "zz" eq_refl
              ltac:(discriminate) Hnone) as (Hc & Hf & Ht & _).
  split_and!; try done.
Defined.

(** C6. The claim: on a response whose [lastMutationId] matches no record
    of the queue, the client logs and returns, and database, cookie and queue
    keep their values and no watcher is notified.  The code, when that id is
    the empty string: [!lastMutationId] is true of it, so the response is
    handled as one that carries no id, whatever the client's state.  On a
    client of the test suite that watches "value" and has one [add(2)]
    pending, with id "mm", the response
    [{ cookie: 1, patch: { value: 9 }, lastMutationId: "" }] matches no
    record, and [onPull] overwrites the database, sets the cookie and calls
    the watcher. *)
Theorem onPull_unknown_empty_ack_applies_patch :
  (∀ (st : SyncKVClient.state) (c : nat) (p : Patch),
     SyncKVClient.onPull (PullResponse.mk c p (Some "")) st
     = SyncKVClient.onPull (PullResponse.mk c p None) st)
  ∧ let st0 := SyncKVClient.init {[ "add" := add ]} false ids in
    let st1 := final (SyncKVClient.watch "value" 7 st0) in
    let st := final (SyncKVClient.mutate "add" [VNum 2] st1) in
    let out :=
      SyncKVClient.onPull (PullResponse.mk 1 {[ "value" := VNum 9 ]} (Some "")) st in
    OptimisticMutationRecord.mutationId <$> SyncKVClient.optimisticMutations st = ["mm"]
    ∧ SyncKVClient.db st = ∅
    ∧ SyncKVClient.cookie st = None
    ∧ completion out = Normal tt
    ∧ SyncKVClient.db (final out) = {[ "value" := VNum 9 ]}
    ∧ SyncKVClient.cookie (final out) = Some 1
    ∧ SyncKVClient.optimisticMutations (final out) = SyncKVClient.optimisticMutations st
    ∧ trace out = [Called "value" 7 (VNum 2)].
Proof.
  split; [reflexivity |]. cbv zeta. split_and!; vm_compute; reflexivity.
Qed.

(* ------------------------------------------------------------------ *)
(** ** Rebasing keeps the identity of a record *)

Lemma findIndex_fmap {A B} (f : A → B) (pred : B → bool) (l : list A) :
  findIndex (λ x, pred (f x)) l = findIndex pred (f <$> l).
Proof.
  induction l as [|x l IH]; simpl; [done |]. by rewrite IH.
Qed.

Lemma findIndex_acked_identity (id : option string)
    (l l' : list OptimisticMutationRecord.t) :
  identity <$> l = identity <$> l' →
  findIndex (acked id) l = findIndex (acked id) l'.
Proof.
  intros Heq.
  transitivity (findIndex (λ i, bool_decide (Some i.1.1 = id)) (identity <$> l)).
  - exact (findIndex_fmap identity (λ i, bool_decide (Some i.1.1 = id)) l).
  - rewrite Heq. symmetry.
    exact (findIndex_fmap identity (λ i, bool_decide (Some i.1.1 = id)) l').
Qed.

(** C10. Whatever the response, [onPull] changes no queued record's
    [mutationId], [key] or [args].  When it acknowledges the record at [index]
    and returns, the queue is the records after [index], in order, each with
    the identity it had, so that a search by mutation id finds in the new queue
    what it would find among them; in every other case (no truthy id, an
    unknown id, a mutator that throws during the rebase) the queue holds the
    same identities as before. *)
Theorem onPull_rebase_keeps_identity (resp : PullResponse.t) (st : SyncKVClient.state) :
  let out := SyncKVClient.onPull resp st in
  let lastMutationId := PullResponse.lastMutationId resp in
  let queue := SyncKVClient.optimisticMutations st in
  let queue' := SyncKVClient.optimisticMutations (final out) in
  match completion out,
        (if truthy_id lastMutationId then findIndex (acked lastMutationId) queue
         else None) with
  | Normal _, Some index =>
      identity <$> queue' = identity <$> drop (S index) queue
      ∧ (∀ j r', queue' !! j = Some r' →
           ∃ r, queue !! (S index + j) = Some r
                ∧ r' = OptimisticMutationRecord.set_patch r
                         (OptimisticMutationRecord.patch r'))
      ∧ (∀ id, findIndex (acked id) queue'
               = findIndex (acked id) (drop (S index) queue))
  | _, _ => identity <$> queue' = identity <$> queue
  end.
Proof.
  cbv zeta. destruct (truthy_id (PullResponse.lastMutationId resp)) eqn:Hid.
  2:{ rewrite (onPull_initial _ _ Hid). cbv zeta. unfold completion, final. simpl.
      by destruct (SyncKVClient.pullQueued st). }
  destruct (findIndex _ (SyncKVClient.optimisticMutations st)) as [index|] eqn:Hfind.
  2:{ by rewrite (onPull_unknown _ _ Hid Hfind). }
  rewrite (onPull_ack _ _ _ Hid Hfind). cbv zeta.
  match goal with |- context [SyncKVClient.rebase_loop ?ix ?p ?s] =>
    destruct (rebase_loop_frame ix p s) as [_ Hframe];
    destruct (SyncKVClient.rebase_loop ix p s) as [[[pte|e] st2] t]
  end; unfold completion, final in *; simpl in *.
  - destruct Hframe as (_ & _ & _ & _ & _ & _ & _ & Hident).
    assert (identity <$> drop (index + 1) (SyncKVClient.optimisticMutations st2)
            = identity <$> drop (S index) (SyncKVClient.optimisticMutations st))
      as Hdrop.
    { rewrite Nat.add_1_r, !fmap_drop. by rewrite Hident. }
    split_and!.
    + done.
    + intros j r' Hj.
      assert ((identity <$> drop (S index) (SyncKVClient.optimisticMutations st)) !! j
              = Some (identity r')) as Hj'.
      { rewrite <- Hdrop, list_lookup_fmap. by rewrite Hj. }
      rewrite list_lookup_fmap, lookup_drop in Hj'.
      destruct (SyncKVClient.optimisticMutations st !! (S index + j)) as [r|]
        eqn:Hr; [| done].
      exists r. split; [exact Hr |]. simpl in Hj'. injection Hj' as Hm Hk Ha.
      destruct r, r'; simpl in *. unfold OptimisticMutationRecord.set_patch.
      simpl. congruence.
    + intros id. by apply findIndex_acked_identity.
  - by destruct Hframe as (_ & _ & _ & _ & _ & _ & _ & Hident).
Qed.

(* ------------------------------------------------------------------ *)
(** ** Acknowledgement and rebase *)

Lemma elem_of_keys (k : string) (m : gmap string Value) :
  k ∈ keys m ↔ is_Some (m !! k).
Proof.
  unfold keys. rewrite list_elem_of_fmap. split.
  - intros ([k' v] & -> & Hkv). apply elem_of_map_to_list in Hkv. by exists v.
  - intros [v Hv]. exists (k, v). split; [done |]. by apply elem_of_map_to_list.
Qed.

Lemma NoDup_keys (m : gmap string Value) : NoDup (keys m).
Proof. apply NoDup_fst_map_to_list. Qed.

Lemma keys_assign (k : string) (target source : gmap string Value) :
  k ∈ keys (assign target source) ↔ k ∈ keys source ∨ k ∈ keys target.
Proof. unfold assign. rewrite !elem_of_keys. apply lookup_union_is_Some. Qed.

(** The keys of a patch that absorbed a list of patches are the keys of
    all of them. *)
Lemma keys_foldl_assign (k : string) (p : Patch) (ps : list Patch) :
  k ∈ keys (foldl assign p ps) ↔ k ∈ keys p ∨ ∃ q, q ∈ ps ∧ k ∈ keys q.
Proof.
  revert p. induction ps as [|q ps IH]; intros p; simpl.
  - split; [by left |]. intros [? | (q & Hq & _)]; [done |].
    by apply elem_of_nil in Hq.
  - rewrite IH, keys_assign. split.
    + intros [[Hq | Hp] | (q' & Hq' & Hk)].
      * right. exists q. split; [apply list_elem_of_here | done].
      * by left.
      * right. exists q'. split; [by apply list_elem_of_further | done].
    + intros [Hp | (q' & [-> | Hq']%elem_of_cons & Hk)].
      * left. by right.
      * left. by left.
      * right. by exists q'.
Qed.

(** C3, as amended.  A client whose queue holds, at position [i] and
    nowhere before, a record with mutation id [M], not the empty string,
    receives a pull response carrying
    [lastMutationId = M]; the mutators of the records after [i] return, with
    patches [ps], when run on fresh transactions over the database updated with
    the server's patch.  Then [onPull] returns; the database is the old one
    overwritten with the server's patch; the queue is the records after [i], in
    order, each with its patch replaced by the fresh one (the records at
    positions up to [i] are gone); the cookie is the response's; and [emit] has
    run once for every key of the server's patch and of the fresh patches, and
    for no other key, calling the key's callbacks with the client's new value. *)
Theorem onPull_ack_discards_and_rebases
    (resp : PullResponse.t) (st : SyncKVClient.state) (M : string) (i : nat)
    (r : OptimisticMutationRecord.t) (ps : list Patch) :
  let queue := SyncKVClient.optimisticMutations st in
  let db' := assign (SyncKVClient.db st) (PullResponse.patch resp) in
  PullResponse.lastMutationId resp = Some M →
  M ≠ "" →
  queue !! i = Some r →
  OptimisticMutationRecord.mutationId r = M →
  (∀ j r', j < i → queue !! j = Some r' →
           OptimisticMutationRecord.mutationId r' ≠ M) →
  Forall2 (λ r p, rerun (SyncKVClient.mutators st) db' r = inr p)
    (drop (S i) queue) ps →
  let out := SyncKVClient.onPull resp st in
  let emitted := keys (foldl assign (PullResponse.patch resp) ps) in
  completion out = Normal tt
  ∧ SyncKVClient.db (final out) = db'
  ∧ SyncKVClient.optimisticMutations (final out)
    = zip_with OptimisticMutationRecord.set_patch (drop (S i) queue) ps
  ∧ length (SyncKVClient.optimisticMutations (final out)) = length queue - S i
  ∧ SyncKVClient.cookie (final out) = Some (PullResponse.cookie resp)
  ∧ SyncKVClient.subscriptions (final out) = SyncKVClient.subscriptions st
  ∧ trace out
    = client_logged st "Received pull" ++ client_logged st "client db"
        ++ (emitted ≫= emit_calls (final out))
  ∧ NoDup emitted
  ∧ (∀ k, k ∈ emitted ↔
          k ∈ keys (PullResponse.patch resp) ∨ ∃ p, p ∈ ps ∧ k ∈ keys p).
Proof.
  intros queue db' HM Hne Hi Hr Hfirst Hps. cbv zeta.
  assert (truthy_id (PullResponse.lastMutationId resp) = true) as Hid.
  { rewrite HM. by apply truthy_id_Some. }
  assert (findIndex (acked (PullResponse.lastMutationId resp)) queue = Some i)
    as Hfind.
  { apply findIndex_Some. exists r. unfold acked. split_and!.
    - done.
    - apply bool_decide_eq_true. by rewrite HM, Hr.
    - intros j r' Hj Hr'. apply bool_decide_eq_false. rewrite HM.
      intros [= Heq]. by apply (Hfirst j r'). }
  pose proof (lookup_lt_Some _ _ _ Hi) as Hlt.
  pose proof (Forall2_length _ _ _ Hps) as Hlen. rewrite length_drop in Hlen.
  rewrite (onPull_ack _ _ _ Hid Hfind). cbv zeta.
  set (st1 := SyncKVClient.with_db _ st).
  pose proof (rebase_loop_run _ _ _ _ Hps (take (S i) queue) []
                (PullResponse.patch resp) st1 eq_refl eq_refl) as Hloop.
  rewrite length_take, length_drop in Hloop.
  rewrite Nat.min_l in Hloop by lia.
  rewrite !Nat.add_1_r. subst queue. rewrite Hloop.
  2:{ subst st1. simpl. by rewrite app_nil_r, take_drop. }
  clear Hloop. unfold completion, final, trace. simpl.
  rewrite app_nil_r.
  set (queue := SyncKVClient.optimisticMutations st) in *.
  assert (drop (S i)
            (take (S i) queue
             ++ zip_with OptimisticMutationRecord.set_patch (drop (S i) queue) ps)
          = zip_with OptimisticMutationRecord.set_patch (drop (S i) queue) ps)
    as Hdrop.
  { rewrite drop_app_length'; [done |]. rewrite length_take. lia. }
  rewrite Hdrop. split_and!; try done.
  - rewrite length_zip_with, length_drop. lia.
  - apply NoDup_keys.
  - intros k. apply keys_foldl_assign.
Qed.

(** The amended claim at a client that watches "value" and has [add(2)] and
    [add(3)] pending, with ids "mm" and "mmm", when the server acknowledges "mm" with
    the patch [{value: 2}]: the first record is dropped, the second is rebased
    from [{value: 3}] to [{value: 5}], and the watcher is called with 5. *)
Lemma onPull_ack_discards_and_rebases_witness :
  let st0 := SyncKVClient.init {[ "add" := add ]} false ids in
  let st1 := final (SyncKVClient.watch "value" 7 st0) in
  let st2 := final (SyncKVClient.mutate "add" [VNum 2] st1) in
  let st := final (SyncKVClient.mutate "add" [VNum 3] st2) in
  let resp := PullResponse.mk 1 {[ "value" := VNum 2 ]} (Some "mm") in
  let out := SyncKVClient.onPull resp st in
  let summary r :=
    (OptimisticMutationRecord.mutationId r, OptimisticMutationRecord.patch r) in
  summary <$> SyncKVClient.optimisticMutations st
    = [("mm", {[ "value" := VNum 2 ]}); ("mmm", {[ "value" := VNum 3 ]})]
  ∧ completion out = Normal tt
  ∧ SyncKVClient.db (final out) = {[ "value" := VNum 2 ]}
  ∧ summary <$> SyncKVClient.optimisticMutations (final out)
    = [("mmm", {[ "value" := VNum 5 ]})]
  ∧ SyncKVClient.cookie (final out) = Some 1
  ∧ trace out = [Called "value" 7 (VNum 5)].
Proof.
  cbv zeta.
  set (st := final (SyncKVClient.mutate "add" [VNum 3] _)).
  set (resp := PullResponse.mk 1 _ (Some "mm")).
  set (r := OptimisticMutationRecord.mk "mm" {[ "value" := VNum 2 ]} "add" [VNum 2]).
  assert (SyncKVClient.optimisticMutations st
          = [r; OptimisticMutationRecord.mk "mmm" {[ "value" := VNum 3 ]} "add" [VNum 3]])
    as Hqueue by (vm_compute; reflexivity).
  assert (SyncKVClient.optimisticMutations st !! 0 = Some r) as Hi
    by (by rewrite Hqueue).
  assert (∀ j r', j < 0 → SyncKVClient.optimisticMutations st !! j = Some r' →
                  OptimisticMutationRecord.mutationId r' ≠ "mm") as Hfirst
    by (intros j r' Hj; lia).
  assert (Forall2
            (λ r p, rerun (SyncKVClient.mutators st)
                      (assign (SyncKVClient.db st) (PullResponse.patch resp)) r
                    = inr p)
            (drop 1 (SyncKVClient.optimisticMutations st))
            [ {[ "value" := VNum 5 ]} ]) as Hps.
  { rewrite Hqueue. simpl drop. constructor; [vm_compute; reflexivity | constructor]. }
  destruct (onPull_ack_discards_and_rebases resp st "mm" 0 r
              [ {[ "value" := VNum 5 ]} ] eq_refl ltac:(discriminate) Hi eq_refl
              Hfirst Hps)
    as (Hc & Hdb & Hq & _ & Hcookie & _ & Ht & _).
  split_and!.
  - rewrite Hqueue. reflexivity.
  - exact Hc.
  - rewrite Hdb. vm_compute. reflexivity.
  - rewrite Hq, Hqueue. reflexivity.
  - exact Hcookie.
  - rewrite Ht. vm_compute. reflexivity.
Defined.

(** C3, the claim as stated, fails on each of three clients whose queue
    holds a record with the acknowledged id [M] at position [i].
    - A mutator re-run by the rebase throws: two guarded mutations are
      pending, "mm" and "mmm", and the acknowledgement of "mm" comes with a
      patch that sets the lock.  [onPull] throws; no record is discarded,
      the cookie is not set and the watcher of "lock" is not called.
    - [M] is the empty string, the id [randomId()] gave the first of two
      pending [add]s: the response is handled as one without an id.  No
      record is discarded and the second is not re-executed: its patch stays
      [{value: 3}].
    - [M] is the id of the records at positions 0 and 1, and [i] is 1: the
      record at position 1 is re-executed and kept, not discarded. *)
Lemma onPull_ack_keeps_acknowledged_records :
  let summary r :=
    (OptimisticMutationRecord.mutationId r, OptimisticMutationRecord.patch r) in
  (let st0 := SyncKVClient.init {[ "guarded" := guarded ]} false ids in
   let st1 := final (SyncKVClient.watch "lock" 7 st0) in
   let st2 := final (SyncKVClient.mutate "guarded" [] st1) in
   let st := final (SyncKVClient.mutate "guarded" [] st2) in
   let resp := PullResponse.mk 1 {[ "lock" := VBool true ]} (Some "mm") in
   let out := SyncKVClient.onPull resp st in
   OptimisticMutationRecord.mutationId <$> SyncKVClient.optimisticMutations st
     = ["mm"; "mmm"]
   ∧ completion out = Throws MutatorError
   ∧ OptimisticMutationRecord.mutationId <$> SyncKVClient.optimisticMutations (final out)
     = ["mm"; "mmm"]
   ∧ SyncKVClient.cookie (final out) = None
   ∧ trace out = [])
  ∧ (let random n := if Nat.eqb n 1 then "" else ids n in
     let st0 := SyncKVClient.init {[ "add" := add ]} false random in
     let st1 := final (SyncKVClient.mutate "add" [VNum 2] st0) in
     let st := final (SyncKVClient.mutate "add" [VNum 3] st1) in
     let resp := PullResponse.mk 1 {[ "value" := VNum 2 ]} (Some "") in
     let out := SyncKVClient.onPull resp st in
     summary <$> SyncKVClient.optimisticMutations st
       = [("", {[ "value" := VNum 2 ]}); ("mmm", {[ "value" := VNum 3 ]})]
     ∧ completion out = Normal tt
     ∧ SyncKVClient.optimisticMutations (final out) = SyncKVClient.optimisticMutations st)
  ∧ (let st0 := SyncKVClient.init {[ "add" := add ]} false (λ _, "m") in
     let st1 := final (SyncKVClient.mutate "add" [VNum 2] st0) in
     let st := final (SyncKVClient.mutate "add" [VNum 3] st1) in
     let resp := PullResponse.mk 1 {[ "value" := VNum 2 ]} (Some "m") in
     let out := SyncKVClient.onPull resp st in
     summary <$> SyncKVClient.optimisticMutations st
       = [("m", {[ "value" := VNum 2 ]}); ("m", {[ "value" := VNum 3 ]})]
     ∧ completion out = Normal tt
     ∧ summary <$> SyncKVClient.optimisticMutations (final out)
       = [("m", {[ "value" := VNum 5 ]})]).
Proof. cbv zeta. split_and!; vm_compute; reflexivity. Qed.

(* ================================================================== *)
(** * Further properties of the code *)

(* ------------------------------------------------------------------ *)
(** ** The server's reads *)

Lemma first_hit_reverse_snoc (k : string) (log : list Patch) (p : Patch) :
  first_hit k (reverse (log ++ [p]))
  = match p !! k with
    | Some v => Some v
    | None => first_hit k (reverse log)
    end.
Proof. by rewrite reverse_snoc. Qed.

(** X1. [server.get(key)] returns the value the key has in the last patch
    of the log that has the key, and [undefined] when no patch has it; it is
    the value the key has in the patch a pull without a cookie returns. *)
Theorem server_get_reads_newest_patch (s : SyncKVServer.state) (cid k : string) :
  (∀ i p v,
     SyncKVServer.db s !! i = Some p → p !! k = Some v →
     (∀ j q, i < j → SyncKVServer.db s !! j = Some q → q !! k = None) →
     SyncKVServer.get k s = v)
  ∧ ((∀ p, p ∈ SyncKVServer.db s → p !! k = None) →
     SyncKVServer.get k s = VUndefined)
  ∧ ∃ response,
      completion (SyncKVServer.pull cid None s) = Normal response
      ∧ prop (PullResponse.patch response) k = SyncKVServer.get k s.
Proof.
  assert (SyncKVServer.get k s = prop (merge (SyncKVServer.db s)) k) as Hget.
  { unfold SyncKVServer.get, prop. by rewrite merge_lookup. }
  split_and!.
  - intros i p v Hi Hv Hlast. rewrite Hget. unfold prop.
    assert (merge (SyncKVServer.db s) !! k = Some v) as ->; [| done].
    apply merge_lookup_Some. by exists i, p.
  - intros Hnone. unfold SyncKVServer.get.
    assert (first_hit k (reverse (SyncKVServer.db s)) = None) as ->; [| done].
    apply first_hit_None. intros p Hp. apply Hnone. by apply elem_of_reverse.
  - rewrite pull_run. cbv zeta. eexists. split; [reflexivity |]. by rewrite Hget.
Qed.

(** X2. A server transaction reads back what was last written to a key,
    whatever the value ([undefined] and the other falsy values included); a
    write to one key leaves the reads of the others as they were, and leaves
    the log alone; and a key not written is read from the log, newest patch
    first, as [server.get] reads it. *)
Theorem ServerTransaction_reads_its_writes
    (tx : ServerTransaction.t) (k k' : string) (v : Value) (s : SyncKVServer.state) :
  ServerTransaction.get (ServerTransaction.set tx k v) k = v
  ∧ (k ≠ k' →
     ServerTransaction.get (ServerTransaction.set tx k v) k'
     = ServerTransaction.get tx k')
  ∧ ServerTransaction.db (ServerTransaction.set tx k v) = ServerTransaction.db tx
  ∧ (ServerTransaction.patch tx !! k = None →
     ServerTransaction.db tx = SyncKVServer.db s →
     ServerTransaction.get tx k = SyncKVServer.get k s)
  ∧ ServerTransaction.get (ServerTransaction.new (SyncKVServer.db s)) k
    = SyncKVServer.get k s.
Proof.
  unfold ServerTransaction.get, ServerTransaction.set, SyncKVServer.get. simpl.
  split_and!.
  - by rewrite lookup_insert_eq.
  - intros Hne. by rewrite lookup_insert_ne.
  - done.
  - intros -> ->. done.
  - by rewrite lookup_empty.
Qed.

(* ------------------------------------------------------------------ *)
(** ** The log and the version *)

Lemma serve_log_grows (s : SyncKVServer.state) (r : SyncKVServer.Request) :
  SyncKVServer.db s `prefix_of` SyncKVServer.db (SyncKVServer.serve s r)
  ∧ SyncKVServer.mutators (SyncKVServer.serve s r) = SyncKVServer.mutators s
  ∧ SyncKVServer.logger (SyncKVServer.serve s r) = SyncKVServer.logger s.
Proof.
  destruct r as [cid c | cid [batch|] | h | h]; simpl.
  - rewrite pull_run. cbv zeta. unfold final. simpl.
    by destruct (truthy_id _).
  - rewrite push_run.
    destruct (run_batch _ _ _) as [e|tx]; [done |]. cbv zeta.
    destruct (last batch); unfold final; simpl;
      (split; [by apply prefix_app_r | done]).
  - by rewrite push_missing_list.
  - done.
  - unfold SyncKVServer.disconnect. eff_unfold.
    by destruct (indexOf h (SyncKVServer.clients s)).
Qed.

Lemma serve_all_log_grows (s : SyncKVServer.state) (rs : list SyncKVServer.Request) :
  SyncKVServer.db s `prefix_of` SyncKVServer.db (SyncKVServer.serve_all s rs)
  ∧ SyncKVServer.mutators (SyncKVServer.serve_all s rs) = SyncKVServer.mutators s
  ∧ SyncKVServer.logger (SyncKVServer.serve_all s rs) = SyncKVServer.logger s.
Proof.
  revert s. induction rs as [|r rs IH]; intros s; [done |]. simpl.
  destruct (serve_log_grows s r) as (Hp & Hm & Hl).
  destruct (IH (SyncKVServer.serve s r)) as (Hp' & Hm' & Hl').
  split_and!; [by etrans | congruence | congruence].
Qed.

(** X3. Whatever calls a server has served since its construction and
    whatever calls it serves next, failed pushes included: the [version]
    field is the length of the log, the log it had is a prefix of the log it
    has (patches are only ever appended), the version does not decrease, and
    the mutator registry is the one it was built with. *)
Theorem server_log_is_append_only
    (registry : gmap string AnyMutator) (initialState : option Database)
    (lg : bool) (before after : list SyncKVServer.Request) :
  let s := SyncKVServer.serve_all (SyncKVServer.new registry initialState lg) before in
  let s' := SyncKVServer.serve_all s after in
  SyncKVServer.version s' = length (SyncKVServer.db s')
  ∧ SyncKVServer.db s `prefix_of` SyncKVServer.db s'
  ∧ SyncKVServer.version s ≤ SyncKVServer.version s'
  ∧ SyncKVServer.mutators s' = registry.
Proof.
  cbv zeta.
  set (s := SyncKVServer.serve_all (SyncKVServer.new _ _ _) before).
  assert (SyncKVServer.version s = length (SyncKVServer.db s)) as Hv
    by apply serve_all_version, new_version.
  pose proof (serve_all_version s after Hv) as Hv'.
  destruct (serve_all_log_grows s after) as (Hp & Hm & _).
  destruct (serve_all_log_grows (SyncKVServer.new registry initialState lg) before)
    as (_ & Hm0 & _).
  split_and!.
  - done.
  - done.
  - rewrite Hv, Hv'. by apply prefix_length.
  - rewrite Hm. exact Hm0.
Qed.

(* ------------------------------------------------------------------ *)
(** ** What a push does *)

Lemma run_batch_unknown (registry : gmap string AnyMutator)
    (batch : list Mutation.t) (tx : ServerTransaction.t) (m : Mutation.t) :
  m ∈ batch → registry !! Mutation.key m = None →
  ∃ e, run_batch registry batch tx = inl e.
Proof.
  intros Hm Hkey. revert tx.
  induction batch as [|m' batch IH]; intros tx; [by apply elem_of_nil in Hm |].
  cbn [run_batch]. unfold AnyMutator in *.
  apply elem_of_cons in Hm as [-> | Hm].
  - eexists. by rewrite Hkey.
  - destruct (registry !! Mutation.key m') as [mutator|]; [| by eexists].
    destruct (run_prog _ tx) as [tx'|]; [by apply IH | by eexists].
Qed.

Lemma poked_logged (s : SyncKVServer.state) (message : string) (t : list ServerEvent) :
  poked (server_logged s message ++ t) = poked t.
Proof. unfold server_logged. by destruct (SyncKVServer.logger s). Qed.

Lemma poked_pokes (cs : list ClientHandle) : poked (ClientPoked <$> cs) = cs.
Proof.
  induction cs as [|c cs IH]; [done |].
  change (poked (ClientPoked <$> c :: cs)) with (c :: poked (ClientPoked <$> cs)).
  by rewrite IH.
Qed.

Lemma poked_push_trace (s : SyncKVServer.state) (a b cid id : string) (p : Patch)
    (cs : list ClientHandle) :
  poked ((server_logged s a ++ [DbPushed p] ++ server_logged s b
            ++ [VersionIncremented])
         ++ [LastMutationIdSet cid id] ++ (ClientPoked <$> cs)) = cs.
Proof.
  unfold server_logged. destruct (SyncKVServer.logger s); apply poked_pokes.
Qed.

(** X4. A push whose batch names a mutator the server does not have throws,
    wherever in the batch the name stands: the mutators before it have run,
    but nothing they wrote is kept.  The server is left exactly as it was and
    no client is poked. *)
Theorem push_unknown_mutator_changes_nothing
    (s : SyncKVServer.state) (cid : string) (batch : list Mutation.t)
    (m : Mutation.t) :
  m ∈ batch →
  SyncKVServer.mutators s !! Mutation.key m = None →
  let out := SyncKVServer.push cid (Some batch) s in
  (∃ e, completion out = Throws e)
  ∧ final out = s
  ∧ poked (trace out) = [].
Proof.
  intros Hm Hkey. cbv zeta. rewrite push_run.
  destruct (run_batch_unknown (SyncKVServer.mutators s) batch
              (ServerTransaction.new (SyncKVServer.db s)) m Hm Hkey) as [e ->].
  split_and!; [by exists e | done |].
  unfold trace. simpl. rewrite <- (app_nil_r (server_logged _ _)).
  by rewrite poked_logged.
Qed.

(** X4 at a batch whose second mutation names "sub" on a server that has
    only [add]. *)
Lemma push_unknown_mutator_changes_nothing_witness :
  let s := SyncKVServer.new {[ "add" := add ]} None false in
  let batch := [Mutation.mk "m" "add" [VNum 2]; Mutation.mk "mm" "sub" [VNum 1]] in
  let out := SyncKVServer.push "c" (Some batch) s in
  (∃ e, completion out = Throws e) ∧ final out = s ∧ poked (trace out) = [].
Proof.
  cbv zeta.
  apply (push_unknown_mutator_changes_nothing
           (SyncKVServer.new {[ "add" := add ]} None false) "c"
           [Mutation.mk "m" "add" [VNum 2]; Mutation.mk "mm" "sub" [VNum 1]]
           (Mutation.mk "mm" "sub" [VNum 1])).
  - apply list_elem_of_further, list_elem_of_here.
  - vm_compute. reflexivity.
Defined.

Lemma push_appends_and_pokes_all_aux
    (s : SyncKVServer.state) (cid : string) (batch : list Mutation.t)
    (tx : ServerTransaction.t) (m : Mutation.t) :
  run_batch (SyncKVServer.mutators s) batch
    (ServerTransaction.new (SyncKVServer.db s)) = inr tx →
  last batch = Some m →
  SyncKVServer.db (final (SyncKVServer.push cid (Some batch) s))
  = SyncKVServer.db s ++ [ServerTransaction.patch tx]
  ∧ SyncKVServer.lastMutationIds (final (SyncKVServer.push cid (Some batch) s))
    = <[cid := Mutation.mutationId m]> (SyncKVServer.lastMutationIds s).
Proof.
  intros Hrun Hlast. rewrite push_run, Hrun. cbv zeta. by rewrite Hlast.
Qed.

(** X5. A push whose mutators all return appends one patch, the writes of
    the whole batch, increments the version by one, records the id of the
    batch's last mutation for the pushing client and for no other, and pokes
    every connected client once, in the order of connection, the pushing
    client's handle like any other.  The list of clients is not changed. *)
Theorem push_appends_and_pokes_all
    (s : SyncKVServer.state) (cid : string) (batch : list Mutation.t)
    (tx : ServerTransaction.t) (m : Mutation.t) :
  run_batch (SyncKVServer.mutators s) batch
    (ServerTransaction.new (SyncKVServer.db s)) = inr tx →
  last batch = Some m →
  let out := SyncKVServer.push cid (Some batch) s in
  completion out = Normal tt
  ∧ SyncKVServer.db (final out) = SyncKVServer.db s ++ [ServerTransaction.patch tx]
  ∧ SyncKVServer.version (final out) = S (SyncKVServer.version s)
  ∧ SyncKVServer.lastMutationIds (final out)
    = <[cid := Mutation.mutationId m]> (SyncKVServer.lastMutationIds s)
  ∧ SyncKVServer.clients (final out) = SyncKVServer.clients s
  ∧ poked (trace out) = SyncKVServer.clients s.
Proof.
  intros Hrun Hlast. cbv zeta. rewrite push_run, Hrun. cbv zeta. rewrite Hlast.
  split_and!; [reflexivity .. | apply poked_push_trace].
Qed.

(** X5 at a server with two connected clients. *)
Lemma push_appends_and_pokes_all_witness :
  let s0 := SyncKVServer.new {[ "add" := add ]} None false in
  let s := final (SyncKVServer.connectToClient 8
                    (final (SyncKVServer.connectToClient 4 s0))) in
  let out := SyncKVServer.push "c" (Some [Mutation.mk "m" "add" [VNum 2]]) s in
  completion out = Normal tt
  ∧ SyncKVServer.db (final out) = [ {[ "value" := VNum 2 ]} ]
  ∧ SyncKVServer.version (final out) = 1
  ∧ poked (trace out) = [4; 8].
Proof.
  cbv zeta.
  set (s := final (SyncKVServer.connectToClient 8 _)).
  assert (run_batch (SyncKVServer.mutators s) [Mutation.mk "m" "add" [VNum 2]]
            (ServerTransaction.new (SyncKVServer.db s))
          = inr (ServerTransaction.mk [] {[ "value" := VNum 2 ]})) as Hrun
    by (vm_compute; reflexivity).
  destruct (push_appends_and_pokes_all s "c" [Mutation.mk "m" "add" [VNum 2]]
              _ (Mutation.mk "m" "add" [VNum 2]) Hrun eq_refl)
    as (Hc & Hdb & Hv & _ & _ & Hp).
  split_and!; [exact Hc | by rewrite Hdb | by rewrite Hv | by rewrite Hp].
Defined.

Lemma get_after_push
    (s : SyncKVServer.state) (cid : string) (batch : list Mutation.t)
    (tx : ServerTransaction.t) (m : Mutation.t) (k : string) :
  run_batch (SyncKVServer.mutators s) batch
    (ServerTransaction.new (SyncKVServer.db s)) = inr tx →
  last batch = Some m →
  SyncKVServer.get k (final (SyncKVServer.push cid (Some batch) s))
  = match ServerTransaction.patch tx !! k with
    | Some v => v
    | None => SyncKVServer.get k s
    end.
Proof.
  intros Hrun Hlast. rewrite push_run, Hrun. cbv zeta. rewrite Hlast.
  unfold final, SyncKVServer.get. simpl. rewrite first_hit_reverse_snoc.
  by destruct (ServerTransaction.patch tx !! k).
Qed.

(** X6. After a push whose mutators all return, [server.get] of a key the
    batch wrote is the value the batch last wrote to it, and [server.get] of
    any other key is what it was before the push. *)
Theorem push_then_get
    (s : SyncKVServer.state) (cid : string) (batch : list Mutation.t)
    (tx : ServerTransaction.t) (m : Mutation.t) (k : string) :
  run_batch (SyncKVServer.mutators s) batch
    (ServerTransaction.new (SyncKVServer.db s)) = inr tx →
  last batch = Some m →
  SyncKVServer.get k (final (SyncKVServer.push cid (Some batch) s))
  = match ServerTransaction.patch tx !! k with
    | Some v => v
    | None => SyncKVServer.get k s
    end.
Proof.
  intros Hrun Hlast. by apply (get_after_push s cid batch tx m k).
Qed.

(** X6 at the push of [put("a", 0)]: the falsy value is read back. *)
Lemma push_then_get_witness :
  let s := SyncKVServer.new {[ "put" := put "a" ]} (Some {[ "a" := VNum 7 ]}) false in
  SyncKVServer.get "a"
    (final (SyncKVServer.push "c" (Some [Mutation.mk "m" "put" [VNum 0]]) s))
  = VNum 0.
Proof.
  cbv zeta.
  set (s := SyncKVServer.new _ _ _).
  assert (run_batch (SyncKVServer.mutators s) [Mutation.mk "m" "put" [VNum 0]]
            (ServerTransaction.new (SyncKVServer.db s))
          = inr (ServerTransaction.mk [ {[ "a" := VNum 7 ]} ] {[ "a" := VNum 0 ]}))
    as Hrun by (vm_compute; reflexivity).
  rewrite (push_then_get s "c" [Mutation.mk "m" "put" [VNum 0]]
             _ (Mutation.mk "m" "put" [VNum 0]) "a" Hrun eq_refl).
  reflexivity.
Defined.

(** X7. After a push whose mutators all return, the pushing client's pull
    from the version it had seen returns exactly the pushed patch, the new
    version as cookie, and the id of the batch's last mutation; the pull
    consumes that id.  Another client's pull from the same version returns
    the same patch and cookie, with whatever id was pending for that client.
    Ids are non-empty strings. *)
Theorem push_then_pull
    (s : SyncKVServer.state) (cid cid' : string) (batch : list Mutation.t)
    (tx : ServerTransaction.t) (m : Mutation.t) :
  run_batch (SyncKVServer.mutators s) batch
    (ServerTransaction.new (SyncKVServer.db s)) = inr tx →
  last batch = Some m →
  Mutation.mutationId m ≠ "" →
  cid' ≠ cid →
  let s' := final (SyncKVServer.push cid (Some batch) s) in
  let seen := Some (length (SyncKVServer.db s)) in
  completion (SyncKVServer.pull cid seen s')
  = Normal (PullResponse.mk (S (length (SyncKVServer.db s)))
              (ServerTransaction.patch tx) (Some (Mutation.mutationId m)))
  ∧ SyncKVServer.lastMutationIds (final (SyncKVServer.pull cid seen s')) !! cid = None
  ∧ completion (SyncKVServer.pull cid' seen s')
    = Normal (PullResponse.mk (S (length (SyncKVServer.db s)))
                (ServerTransaction.patch tx)
                (SyncKVServer.lastMutationIds s !! cid')).
Proof.
  intros Hrun Hlast Hid Hne. cbv zeta.
  destruct (push_appends_and_pokes_all_aux s cid batch tx m Hrun Hlast)
    as (Hdb & Hids).
  set (s' := final (SyncKVServer.push cid (Some batch) s)) in *.
  rewrite !pull_run. cbv zeta. unfold completion, final. cbn [fst snd].
  rewrite Hdb, Hids, lookup_insert_eq, lookup_insert_ne by done.
  change (default 0 (Some ?n)) with n.
  rewrite length_app, drop_app_length, Nat.add_1_r.
  assert (merge [ServerTransaction.patch tx] = ServerTransaction.patch tx) as ->.
  { unfold merge, assign. simpl. apply (right_id_L ∅ (∪)). }
  split_and!; [done | | done].
  rewrite (truthy_id_Some _ Hid).
  change (SyncKVServer.lastMutationIds (SyncKVServer.with_lastMutationIds ?t _))
    with t.
  apply lookup_delete_eq.
Qed.

(** X7 at the first push of [add(2)] by client "c", with "d" the other
    client. *)
Lemma push_then_pull_witness :
  let s := SyncKVServer.new {[ "add" := add ]} None false in
  let s' := final (SyncKVServer.push "c" (Some [Mutation.mk "m" "add" [VNum 2]]) s) in
  completion (SyncKVServer.pull "c" (Some 0) s')
  = Normal (PullResponse.mk 1 {[ "value" := VNum 2 ]} (Some "m"))
  ∧ completion (SyncKVServer.pull "d" (Some 0) s')
    = Normal (PullResponse.mk 1 {[ "value" := VNum 2 ]} None).
Proof.
  cbv zeta.
  set (s := SyncKVServer.new _ _ _).
  assert (run_batch (SyncKVServer.mutators s) [Mutation.mk "m" "add" [VNum 2]]
            (ServerTransaction.new (SyncKVServer.db s))
          = inr (ServerTransaction.mk [] {[ "value" := VNum 2 ]})) as Hrun
    by (vm_compute; reflexivity).
  destruct (push_then_pull s "c" "d" [Mutation.mk "m" "add" [VNum 2]]
              _ (Mutation.mk "m" "add" [VNum 2]) Hrun eq_refl
              ltac:(discriminate) ltac:(discriminate))
    as (Hc & _ & Hd).
  split; [exact Hc | exact Hd].
Defined.

(* ------------------------------------------------------------------ *)
(** ** The scenarios of the test suite, on the server *)

(** On the safe integers a double is the integer it stands for. *)
Lemma double_safe (n : Z) : safe n → double n = VNum n.
Proof.
  unfold safe, double, round53. intros Hn. cbv zeta.
  assert (Z.log2 (Z.abs n) < 53)%Z as Hlog.
  { destruct (decide (Z.abs n = 0)%Z) as [-> | Hne]; [done |].
    apply Z.log2_lt_pow2; lia. }
  rewrite (proj2 (Z.leb_le (Z.log2 (Z.abs n) + 1 - 53) 0)) by lia.
  rewrite (proj2 (Z.leb_gt 1024 (Z.log2 (Z.abs n)))) by lia.
  f_equal. lia.
Qed.

(** [+] on two safe integers with a safe sum is the sum. *)
Lemma js_plus_safe (a x : Z) :
  safe a → safe x → safe (a + x) →
  js_plus (VNum a) (VNum x) = Some (VNum (a + x)).
Proof.
  intros Ha Hx Hsum. unfold js_plus. simpl.
  rewrite (double_safe a Ha), (double_safe x Hx). simpl.
  by rewrite (double_safe _ Hsum).
Qed.

(** Beyond the safe integers [+] rounds, on a string it concatenates, and
    on an object that hides [toString] it throws. *)
Lemma js_plus_beyond_safe_integers :
  js_plus (VNum (2 ^ 53)) (VNum 1) = Some (VNum (2 ^ 53))
  ∧ js_plus (VNum (2 ^ 53)) (VNum 3) = Some (VNum (2 ^ 53 + 4))
  ∧ js_plus (VNum (2 ^ 1023)) (VNum (2 ^ 1023)) = Some (VInfinity false)
  ∧ js_plus (VNum 0) VUndefined = Some VNaN
  ∧ js_plus (VNum 0) (VStr "a") = Some (VStr "0a")
  ∧ js_plus (VNum (2 ^ 60)) (VStr "") = Some (VStr "1152921504606847000")
  ∧ js_plus (VNum (2 ^ 70)) (VStr "") = Some (VStr "1.1805916207174113e+21")
  ∧ js_plus (VArr [VNum 1; VNull; VArr [VNum 2; VNum 3]]) (VBool true)
    = Some (VStr "1,,2,3true")
  ∧ js_plus (VObj [("k", VNum 1)]) (VNum 1) = Some (VStr "[object Object]1")
  ∧ js_plus (VObj [("toString", VNum 1)]) (VNum 1) = None
  ∧ js_plus (VBool true) VNull = Some (VNum 1).
Proof. split_and!; vm_compute; reflexivity. Qed.

Lemma run_batch_add (registry : gmap string AnyMutator) (log : list Patch)
    (id : string) (x total : Z) :
  registry !! "add" = Some add →
  js_nullish (default VUndefined (first_hit "value" (reverse log))) (VNum 0)
  = VNum total →
  safe total → safe x → safe (total + x) →
  run_batch registry [Mutation.mk id "add" [VNum x]] (ServerTransaction.new log)
  = inr (ServerTransaction.mk log {[ "value" := VNum (total + x) ]}).
Proof.
  intros Hadd Hv Htotal Hx Hsum. cbn [run_batch Mutation.key Mutation.args].
  unfold AnyMutator in *. rewrite Hadd. unfold add. cbv zeta. cbn [run_prog].
  change (tx_get (ServerTransaction.new log) "value")
    with (ServerTransaction.get (ServerTransaction.new log) "value").
  unfold ServerTransaction.get. simpl ServerTransaction.patch.
  rewrite lookup_empty. simpl ServerTransaction.db. rewrite Hv.
  change (default VUndefined (head [VNum x])) with (VNum x).
  rewrite (js_plus_safe total x Htotal Hx Hsum).
  reflexivity.
Qed.

Lemma serve_add_or_no_push (s : SyncKVServer.state) (r : SyncKVServer.Request)
    (total : Z) :
  SyncKVServer.mutators s !! "add" = Some add →
  add_or_no_push r →
  js_nullish (SyncKVServer.get "value" s) (VNum 0) = VNum total →
  safe total → safe (added r) → safe (total + added r) →
  js_nullish (SyncKVServer.get "value" (SyncKVServer.serve s r)) (VNum 0)
  = VNum (total + added r).
Proof.
  intros Hadd Hr Hnum Htotal Hx Hsum.
  destruct r as [cid c | cid mutations | h | h];
    simpl in Hr, Hx, Hsum; cbn [SyncKVServer.serve].
  - assert (SyncKVServer.db (final (SyncKVServer.pull cid c s)) = SyncKVServer.db s)
      as Hdb.
    { rewrite pull_run. cbv zeta. unfold final. simpl. by destruct (truthy_id _). }
    unfold SyncKVServer.get in *. rewrite Hdb, Hnum. f_equal. simpl. lia.
  - destruct Hr as (id & x & ->). simpl in Hx, Hsum.
    pose proof (run_batch_add (SyncKVServer.mutators s) (SyncKVServer.db s) id x
                  total Hadd Hnum Htotal Hx Hsum) as Hrun.
    rewrite (get_after_push s cid _ _ (Mutation.mk id "add" [VNum x]) "value"
               Hrun eq_refl).
    simpl ServerTransaction.patch. rewrite lookup_singleton_eq. reflexivity.
  - change (final (SyncKVServer.connectToClient h s))
      with (SyncKVServer.with_clients (SyncKVServer.clients s ++ [h]) s).
    change (SyncKVServer.get "value" (SyncKVServer.with_clients _ s))
      with (SyncKVServer.get "value" s).
    rewrite Hnum. f_equal. simpl. lia.
  - assert (SyncKVServer.db (final (SyncKVServer.disconnect h s)) = SyncKVServer.db s)
      as Hdb.
    { unfold SyncKVServer.disconnect. eff_unfold.
      by destruct (indexOf h (SyncKVServer.clients s)). }
    unfold SyncKVServer.get in *. rewrite Hdb, Hnum. f_equal. simpl. lia.
Qed.

Lemma serve_all_adds (rs : list SyncKVServer.Request) (s : SyncKVServer.state)
    (total : Z) :
  SyncKVServer.mutators s !! "add" = Some add →
  Forall add_or_no_push rs →
  js_nullish (SyncKVServer.get "value" s) (VNum 0) = VNum total →
  safe total →
  Forall (λ r, safe (added r)) rs →
  Forall safe (totals total rs) →
  js_nullish (SyncKVServer.get "value" (SyncKVServer.serve_all s rs)) (VNum 0)
  = VNum (total + foldr (λ r acc, (added r + acc)%Z) 0%Z rs).
Proof.
  revert s total.
  induction rs as [|r rs IH]; intros s total Hadd Hrs Hnum Htotal Hxs Htotals; simpl.
  - cbn [SyncKVServer.serve_all foldl]. rewrite Hnum. f_equal. lia.
  - apply Forall_cons in Hrs as [Hr Hrs]. apply Forall_cons in Hxs as [Hx Hxs].
    apply Forall_cons in Htotals as [Hsum Htotals].
    pose proof (serve_add_or_no_push s r total Hadd Hr Hnum Htotal Hx Hsum) as Hstep.
    change (SyncKVServer.serve_all s (r :: rs))
      with (SyncKVServer.serve_all (SyncKVServer.serve s r) rs).
    rewrite (IH _ (total + added r)%Z); [f_equal; lia | | done | done | done | done | done].
    destruct (serve_log_grows s r) as (_ & -> & _). done.
Qed.

(** X8. On a server built without initial state whose registry has the
    test suite's [add], after any sequence of calls in which every push is
    one [add(x)] (from whichever client, with pulls, connects and disconnects
    in between), [server.get("value") ?? 0] is the sum of the [x] pushed,
    provided every [x] and every running total is a safe integer; beyond
    them [+] rounds. *)
Theorem add_pushes_sum_up
    (registry : gmap string AnyMutator) (lg : bool)
    (rs : list SyncKVServer.Request) :
  registry !! "add" = Some add →
  Forall add_or_no_push rs →
  Forall (λ r, safe (added r)) rs →
  Forall safe (totals 0 rs) →
  let s := SyncKVServer.serve_all (SyncKVServer.new registry None lg) rs in
  js_nullish (SyncKVServer.get "value" s) (VNum 0)
  = VNum (foldr (λ r acc, (added r + acc)%Z) 0%Z rs).
Proof.
  intros Hadd Hrs Hxs Htotals. cbv zeta.
  rewrite (serve_all_adds rs _ 0%Z); [f_equal | done | done | done | | done | done].
  unfold safe. simpl. lia.
Qed.

(** X8 at the test "works with multiple clients and multiple mutations",
    the pulls the pokes trigger included: 2 + 3 + 4 + 5 is 14. *)
Lemma add_pushes_sum_up_witness :
  let push cid id x := SyncKVServer.Push cid (Some [Mutation.mk id "add" [VNum x]]) in
  let rs :=
    [SyncKVServer.Connect 1; SyncKVServer.Connect 2;
     push "c1" "a" 2%Z; SyncKVServer.Pull "c1" (Some 0); SyncKVServer.Pull "c2" (Some 0);
     push "c2" "b" 3%Z; push "c1" "c" 4%Z; push "c2" "d" 5%Z] in
  let s := SyncKVServer.serve_all (SyncKVServer.new {[ "add" := add ]} None false) rs in
  SyncKVServer.get "value" s = VNum 14.
Proof.
  cbv zeta.
  set (rs := [_; _; _; _; _; _; _; _]).
  assert (Forall add_or_no_push rs) as Hrs.
  { subst rs. repeat constructor; simpl; by eexists _, _. }
  assert (Forall (λ r, safe (added r)) rs) as Hxs.
  { subst rs. repeat constructor; unfold safe; simpl; lia. }
  assert (Forall safe (totals 0 rs)) as Htotals.
  { subst rs. repeat constructor; unfold safe; simpl; lia. }
  pose proof (add_pushes_sum_up {[ "add" := add ]} false rs
                ltac:(by rewrite lookup_singleton_eq) Hrs Hxs Htotals) as Hsum.
  cbv zeta in Hsum.
  destruct (SyncKVServer.get "value" _) as [| |b|n| |neg|str|items|fields] eqn:Hget;
    try (vm_compute in Hget; discriminate).
  simpl in Hsum. by rewrite Hsum.
Defined.

(* ------------------------------------------------------------------ *)
(** ** Connecting and disconnecting clients *)





(* ------------------------------------------------------------------ *)
(** ** Local mutations *)

Lemma run_prog_keeps_id (p : TxProg) (tx tx' : Transaction.t) :
  run_prog p tx = Some tx' →
  Transaction.mutationId tx' = Transaction.mutationId tx
  ∧ Transaction.db tx' = Transaction.db tx.
Proof.
  revert tx. induction p as [|k cont IH|k v next IH|]; intros tx; simpl.
  - by intros [= <-].
  - apply IH.
  - intros Hrun. by destruct (IH _ Hrun).
  - done.
Qed.

(** What [mutate] does, in full. *)
Lemma mutate_run (key : string) (args : list Value) (st : SyncKVClient.state) :
  let id := SyncKVClient.random st (SyncKVClient.drawn st) in
  let st1 := SyncKVClient.with_drawn (S (SyncKVClient.drawn st)) st in
  SyncKVClient.mutate key args st
  = match rerun (SyncKVClient.mutators st) (SyncKVClient.db st)
            (OptimisticMutationRecord.mk id ∅ key args) with
    | inl e => (Throws e, st1, client_logged st "Mutating")
    | inr p =>
        let st2 :=
          SyncKVClient.with_optimisticMutations
            (SyncKVClient.optimisticMutations st
               ++ [OptimisticMutationRecord.mk id p key args]) st1 in
        (Normal tt, st2,
         client_logged st "Mutating" ++ client_logged st "Optimistic mutation"
           ++ (keys p ≫= emit_calls st2)
           ++ client_logged st "Pushing mutation"
           ++ [ServerPush (SyncKVClient.clientId st) [Mutation.mk id key args]])
    end.
Proof.
  cbv zeta. unfold SyncKVClient.mutate, rerun.
  rewrite bind_log, bind_gets, bind_run, randomId_run.
  rewrite bind_run, call_mutator_run.
  cbn [OptimisticMutationRecord.key OptimisticMutationRecord.args].
  change (SyncKVClient.mutators (SyncKVClient.with_drawn _ st))
    with (SyncKVClient.mutators st).
  unfold AnyMutator in *.
  match goal with
  | |- context [@lookup ?K ?V ?M ?I key (SyncKVClient.mutators st)] =>
      destruct (@lookup K V M I key (SyncKVClient.mutators st)) as [mutator|]
  end; [| cbv beta iota; by rewrite app_nil_r].
  pose proof (run_prog_mutationId (mutator args) (SyncKVClient.db st)
                (SyncKVClient.random st (SyncKVClient.drawn st)) "" ∅) as Hpatch.
  unfold Transaction.new.
  destruct (run_prog _ (Transaction.mk _ (SyncKVClient.random _ _) _)) as [tx|]
    eqn:Hrun;
    destruct (run_prog _ (Transaction.mk _ "" _)) as [tx'|]; simpl in Hpatch;
    try done; [| cbv beta iota; by rewrite app_nil_r].
  injection Hpatch as Hpatch. apply run_prog_keeps_id in Hrun as [Hid _].
  simpl in Hid. rewrite Hid, Hpatch.
  cbn [Mutation.mutationId Mutation.key Mutation.args].
  rewrite bind_log, bind_modify, bind_run, for_each_emit_run, bind_log, bind_gets.
  reflexivity.
Qed.

(** X10. A local mutation whose mutator returns: the mutator ran on a fresh
    transaction over the client's database alone (pending records are not
    part of what it reads); one record with a freshly drawn id, the mutator's
    name, its arguments and the patch is appended to the queue; the database,
    the cookie and the subscriptions are untouched; [emit] runs once for each
    key of the patch; and one push is sent to the server, of the one
    mutation, with the id of the queued record.  A key the patch wrote reads
    back through [get] at once, unless an older pending record wrote it. *)
Theorem mutate_queues_emits_and_pushes
    (key : string) (args : list Value) (st : SyncKVClient.state) (p : Patch) :
  let id := SyncKVClient.random st (SyncKVClient.drawn st) in
  rerun (SyncKVClient.mutators st) (SyncKVClient.db st)
    (OptimisticMutationRecord.mk id ∅ key args) = inr p →
  let out := SyncKVClient.mutate key args st in
  completion out = Normal tt
  ∧ SyncKVClient.optimisticMutations (final out)
    = SyncKVClient.optimisticMutations st
        ++ [OptimisticMutationRecord.mk id p key args]
  ∧ SyncKVClient.db (final out) = SyncKVClient.db st
  ∧ SyncKVClient.cookie (final out) = SyncKVClient.cookie st
  ∧ SyncKVClient.subscriptions (final out) = SyncKVClient.subscriptions st
  ∧ trace out
    = client_logged st "Mutating" ++ client_logged st "Optimistic mutation"
        ++ (keys p ≫= emit_calls (final out))
        ++ client_logged st "Pushing mutation"
        ++ [ServerPush (SyncKVClient.clientId st) [Mutation.mk id key args]]
  ∧ (∀ k v,
       p !! k = Some v →
       (∀ r, r ∈ SyncKVClient.optimisticMutations st →
             OptimisticMutationRecord.patch r !! k = None) →
       SyncKVClient.get k (final out) = v).
Proof.
  intros id Hrun. cbv zeta. rewrite mutate_run. cbv zeta. fold id. rewrite Hrun.
  unfold completion, final, trace. cbn [fst snd].
  split_and!; try reflexivity.
  intros k v Hv Hnone. unfold SyncKVClient.get.
  cbn [SyncKVClient.optimisticMutations SyncKVClient.with_optimisticMutations].
  assert (first_hit k (OptimisticMutationRecord.patch <$>
            SyncKVClient.optimisticMutations st
              ++ [OptimisticMutationRecord.mk id p key args]) = Some v) as ->;
    [| done].
  apply first_hit_Some.
  exists (length (SyncKVClient.optimisticMutations st)), p. split_and!.
  - rewrite fmap_app. apply list_lookup_middle. by rewrite length_fmap.
  - done.
  - intros j q Hj Hq. rewrite fmap_app, lookup_app_l in Hq
      by (by rewrite length_fmap).
    apply list_elem_of_lookup_2 in Hq.
    apply list_elem_of_fmap in Hq as (r & -> & Hr). by apply Hnone.
Qed.

(** X10 at a client watching "value" and calling [add(2)]. *)
Lemma mutate_queues_emits_and_pushes_witness :
  let st := final (SyncKVClient.watch "value" 7
                     (SyncKVClient.init {[ "add" := add ]} false ids)) in
  let out := SyncKVClient.mutate "add" [VNum 2] st in
  completion out = Normal tt
  ∧ SyncKVClient.optimisticMutations (final out)
    = [OptimisticMutationRecord.mk "mm" {[ "value" := VNum 2 ]} "add" [VNum 2]]
  ∧ trace out
    = [Called "value" 7 (VNum 2);
       ServerPush "m" [Mutation.mk "mm" "add" [VNum 2]]].
Proof.
  cbv zeta.
  set (st := final (SyncKVClient.watch "value" 7 _)).
  assert (rerun (SyncKVClient.mutators st) (SyncKVClient.db st)
            (OptimisticMutationRecord.mk
               (SyncKVClient.random st (SyncKVClient.drawn st)) ∅ "add" [VNum 2])
          = inr {[ "value" := VNum 2 ]}) as Hrun by (vm_compute; reflexivity).
  destruct (mutate_queues_emits_and_pushes "add" [VNum 2] st _ Hrun)
    as (Hc & Hq & _ & _ & _ & Ht & _).
  split_and!.
  - exact Hc.
  - rewrite Hq. reflexivity.
  - rewrite Ht. vm_compute. reflexivity.
Defined.

(** X11. A local mutation whose mutator is not registered, or throws,
    throws the same error at the call site: nothing is queued, no callback is
    called and nothing is sent to the server; the client is as it was, one
    drawn id apart. *)
Theorem mutate_failure_queues_nothing
    (key : string) (args : list Value) (st : SyncKVClient.state) (e : Error) :
  rerun (SyncKVClient.mutators st) (SyncKVClient.db st)
    (OptimisticMutationRecord.mk
       (SyncKVClient.random st (SyncKVClient.drawn st)) ∅ key args) = inl e →
  let out := SyncKVClient.mutate key args st in
  completion out = Throws e
  ∧ final out = SyncKVClient.with_drawn (S (SyncKVClient.drawn st)) st
  ∧ SyncKVClient.optimisticMutations (final out) = SyncKVClient.optimisticMutations st
  ∧ trace out = client_logged st "Mutating".
Proof.
  intros Hrun. cbv zeta. rewrite mutate_run. cbv zeta. rewrite Hrun.
  by split_and!.
Qed.

(** X11 at a call of "sub" on a client that has only [add]. *)
Lemma mutate_failure_queues_nothing_witness :
  let st := SyncKVClient.init {[ "add" := add ]} false ids in
  let out := SyncKVClient.mutate "sub" [VNum 2] st in
  completion out = Throws (TypeError "this.mutators[key] is not a function")
  ∧ SyncKVClient.optimisticMutations (final out) = []
  ∧ trace out = [].
Proof.
  cbv zeta.
  set (st := SyncKVClient.init _ _ _).
  assert (rerun (SyncKVClient.mutators st) (SyncKVClient.db st)
            (OptimisticMutationRecord.mk
               (SyncKVClient.random st (SyncKVClient.drawn st)) ∅ "sub" [VNum 2])
          = inl (TypeError "this.mutators[key] is not a function")) as Hrun
    by (vm_compute; reflexivity).
  destruct (mutate_failure_queues_nothing "sub" [VNum 2] st _ Hrun)
    as (Hc & _ & Hq & Ht).
  split_and!; [exact Hc | by rewrite Hq | by rewrite Ht].
Defined.

(* ------------------------------------------------------------------ *)
(** ** What a client keeps true *)

Lemma rebase_at_draws (i : nat) (patchToEmit : Patch) (st : SyncKVClient.state) :
  SyncKVClient.random (final (SyncKVClient.rebase_at i patchToEmit st))
  = SyncKVClient.random st
  ∧ SyncKVClient.drawn st
    ≤ SyncKVClient.drawn (final (SyncKVClient.rebase_at i patchToEmit st)).
Proof.
  destruct (SyncKVClient.optimisticMutations st !! i) as [r|] eqn:Hi.
  - rewrite (rebase_at_run _ _ _ _ Hi).
    destruct (rerun _ _ r) as [e|p]; unfold final; simpl; split; (done || lia).
  - unfold SyncKVClient.rebase_at. rewrite bind_gets, Hi. by split.
Qed.

Lemma rebase_loop_draws (indices : list nat) (patchToEmit : Patch)
    (st : SyncKVClient.state) :
  SyncKVClient.random (final (SyncKVClient.rebase_loop indices patchToEmit st))
  = SyncKVClient.random st
  ∧ SyncKVClient.drawn st
    ≤ SyncKVClient.drawn (final (SyncKVClient.rebase_loop indices patchToEmit st)).
Proof.
  revert patchToEmit st.
  induction indices as [|i indices IH]; intros patchToEmit st; simpl.
  - by split.
  - rewrite bind_run.
    destruct (rebase_at_draws i patchToEmit st) as [Hr Hd].
    destruct (SyncKVClient.rebase_at i patchToEmit st) as [[[p|e] st1] t1];
      unfold final in Hr, Hd; simpl in Hr, Hd.
    + destruct (IH p st1) as [Hr' Hd'].
      destruct (SyncKVClient.rebase_loop indices p st1) as [[c st2] t2].
      unfold final in *; simpl in *. split; [congruence | lia].
    + by split.
Qed.

Lemma client_inv_init (registry : gmap string AnyMutator) (lg : bool)
    (rnd : nat → string) :
  client_inv registry lg rnd (SyncKVClient.init registry lg rnd).
Proof.
  unfold client_inv. simpl. split_and!; try done.
  exists []. split_and!; [done | constructor | constructor].
Qed.

Lemma mutationId_of_identity (l l' : list OptimisticMutationRecord.t) :
  identity <$> l = identity <$> l' →
  OptimisticMutationRecord.mutationId <$> l
  = OptimisticMutationRecord.mutationId <$> l'.
Proof.
  intros Heq. apply (f_equal (fmap (λ i : string * string * list Value, i.1.1))) in Heq.
  by rewrite <- !list_fmap_compose in Heq.
Qed.

Lemma client_inv_call (registry : gmap string AnyMutator) (lg : bool)
    (rnd : nat → string) (st : SyncKVClient.state) (c : ClientCall) :
  client_inv registry lg rnd st → client_inv registry lg rnd (client_call st c).
Proof.
  intros (Hms & Hlg & Hrnd & Hcid & Hpq & Hone & ns & Hids & Hnd & Hlt).
  assert (∀ d, SyncKVClient.drawn st ≤ d → Forall (λ n, 1 ≤ n < d) ns) as Hlt'.
  { intros d Hd. eapply Forall_impl; [exact Hlt |]. simpl. lia. }
  destruct c as [key args | key cb | key cb | | resp]; simpl.
  - rewrite mutate_run. cbv zeta.
    destruct (rerun _ _ _) as [e|p]; unfold final, client_inv; simpl.
    + split_and!; try done; [lia |]. exists ns. split_and!; try done.
      apply Hlt'. lia.
    + split_and!; try done; [lia |].
      exists (ns ++ [SyncKVClient.drawn st]). split_and!.
      * rewrite !fmap_app, Hids. simpl. by rewrite Hrnd.
      * apply NoDup_app. split_and!; [done | | apply NoDup_singleton].
        intros n Hn [->|?%elem_of_nil]%elem_of_cons; [| done].
        rewrite Forall_forall in Hlt. specialize (Hlt _ Hn). lia.
      * apply Forall_app. split; [apply Hlt'; lia |].
        constructor; [lia | constructor].
  - rewrite watch_run. unfold final, client_inv. simpl. split_and!; try done.
    by exists ns.
  - destruct (unsubscribe_run key cb st)
      as (_ & _ & [[_ ->] | (l1 & l2 & _ & _ & ->)]).
    + unfold client_inv. split_and!; try done. by exists ns.
    + unfold client_inv. simpl. split_and!; try done. by exists ns.
  - unfold SyncKVClient.poke. rewrite bind_log, bind_gets.
    destruct (SyncKVClient.cookie st); [rewrite bind_gets |];
      unfold final, client_inv; simpl; split_and!; try done; by exists ns.
  - destruct (truthy_id (PullResponse.lastMutationId resp)) eqn:Hid.
    2:{ rewrite (onPull_initial _ _ Hid). cbv zeta. rewrite Hpq.
        unfold final, client_inv. simpl. split_and!; try done. by exists ns. }
    destruct (findIndex (acked (PullResponse.lastMutationId resp))
                (SyncKVClient.optimisticMutations st)) as [index|] eqn:Hfind.
    2:{ rewrite (onPull_unknown _ _ Hid Hfind). unfold final, client_inv. simpl.
        split_and!; try done. by exists ns. }
    rewrite (onPull_ack _ _ _ Hid Hfind). cbv zeta.
    match goal with |- context [SyncKVClient.rebase_loop ?ix ?p ?s] =>
      destruct (rebase_loop_frame ix p s)
        as (_ & Hms' & Hlg' & _ & Hcid' & _ & _ & Hpq' & Hident);
      destruct (rebase_loop_draws ix p s) as (Hrnd' & Hdrawn);
      destruct (SyncKVClient.rebase_loop ix p s) as [[[pte|e] st2] t]
    end; unfold final in *; simpl in *.
    + apply mutationId_of_identity in Hident.
      unfold client_inv. simpl. split_and!; try congruence; [lia |].
      exists (drop (index + 1) ns). split_and!.
      * rewrite !fmap_drop. by rewrite Hident, Hids.
      * eapply sublist_NoDup; [exact Hnd | apply sublist_drop].
      * apply Forall_drop, Hlt'. lia.
    + apply mutationId_of_identity in Hident.
      unfold client_inv. split_and!; try congruence; [lia |].
      exists ns. split_and!; [congruence | done | apply Hlt'; lia].
Qed.

Lemma client_inv_calls (registry : gmap string AnyMutator) (lg : bool)
    (rnd : nat → string) (calls : list ClientCall) :
  client_inv registry lg rnd
    (client_calls (SyncKVClient.init registry lg rnd) calls).
Proof.
  unfold client_calls.
  generalize (client_inv_init registry lg rnd).
  generalize (SyncKVClient.init registry lg rnd).
  induction calls as [|c calls IH]; intros st Hst; [done |].
  simpl. apply IH. by apply client_inv_call.
Qed.

(** X12. Whatever calls a client has taken since its construction,
    [pullQueued] is false and the registry, the logger and the client id are
    the ones it was built with.  A poke taken before any pull response has set
    the cookie is therefore dropped for good: it asks the server for nothing
    and changes nothing, and the [onPull] of a response without a truthy
    [lastMutationId] asks the server for nothing either.  Once the cookie is
    set, a poke asks for one pull, with the client's id and cookie. *)
Theorem client_never_queues_a_pull
    (registry : gmap string AnyMutator) (lg : bool) (rnd : nat → string)
    (calls : list ClientCall) (resp : PullResponse.t) :
  let st := client_calls (SyncKVClient.init registry lg rnd) calls in
  SyncKVClient.pullQueued st = false
  ∧ SyncKVClient.mutators st = registry
  ∧ SyncKVClient.logger st = lg
  ∧ SyncKVClient.clientId st = rnd 0
  ∧ (SyncKVClient.cookie st = None →
     SyncKVClient.poke st = (Normal tt, st, client_logged st "Got poked"))
  ∧ (∀ c, SyncKVClient.cookie st = Some c →
     SyncKVClient.poke st
     = (Normal tt, st,
        client_logged st "Got poked" ++ [ServerPull (rnd 0) (Some c)]))
  ∧ (truthy_id (PullResponse.lastMutationId resp) = false →
     ∀ cid c, ServerPull cid c ∉ trace (SyncKVClient.onPull resp st)).
Proof.
  cbv zeta.
  destruct (client_inv_calls registry lg rnd calls)
    as (Hms & Hlg & Hrnd & Hcid & Hpq & _).
  set (st := client_calls _ calls) in *.
  split_and!; try done.
  - intros Hc. unfold SyncKVClient.poke. rewrite bind_log, bind_gets, Hc.
    unfold mret, Eff_ret, eff_ret. by rewrite app_nil_r.
  - intros c Hc. unfold SyncKVClient.poke. rewrite bind_log, bind_gets, Hc.
    rewrite bind_gets, Hcid. reflexivity.
  - intros Hid cid c. rewrite (onPull_initial _ _ Hid). cbv zeta. rewrite Hpq.
    unfold trace. simpl. rewrite app_nil_r.
    intros [Hin | Hin]%elem_of_app.
    + unfold client_logged in Hin. destruct (SyncKVClient.logger st).
      * apply elem_of_cons in Hin as [? | ?%elem_of_nil]; done.
      * by apply elem_of_nil in Hin.
    + apply list_elem_of_bind in Hin as (k & Hin & _).
      unfold emit_calls in Hin. apply list_elem_of_fmap in Hin as (cb & ? & _).
      done.
Qed.

(** X13. When the id oracle never gives the same id twice, the records a
    client has pending carry pairwise distinct mutation ids, whatever calls
    the client has taken: a rebase keeps each record's id, and the ids the
    rebase transactions draw are never queued.  None of them is the client's
    own id. *)
Theorem pending_mutation_ids_are_distinct
    (registry : gmap string AnyMutator) (lg : bool) (rnd : nat → string)
    (calls : list ClientCall) :
  (∀ n n', rnd n = rnd n' → n = n') →
  let st := client_calls (SyncKVClient.init registry lg rnd) calls in
  NoDup (OptimisticMutationRecord.mutationId <$> SyncKVClient.optimisticMutations st)
  ∧ ∀ r, r ∈ SyncKVClient.optimisticMutations st →
         OptimisticMutationRecord.mutationId r ≠ SyncKVClient.clientId st.
Proof.
  intros Hinj. cbv zeta.
  destruct (client_inv_calls registry lg rnd calls)
    as (_ & _ & _ & Hcid & _ & _ & ns & Hids & Hnd & Hlt).
  set (st := client_calls _ calls) in *. split.
  - rewrite Hids. apply NoDup_fmap_2_strong; [| done].
    intros n n' _ _. apply Hinj.
  - intros r Hr Heq.
    assert (OptimisticMutationRecord.mutationId r ∈ rnd <$> ns) as Hin.
    { rewrite <- Hids. by apply list_elem_of_fmap_2. }
    apply list_elem_of_fmap in Hin as (n & Hn & Hin).
    rewrite Forall_forall in Hlt. specialize (Hlt n Hin).
    rewrite Heq, Hcid in Hn. apply Hinj in Hn. lia.
Qed.

Lemma ids_length (n : nat) : String.length (ids n) = S n.
Proof.
  induction n as [|n IH]; [done |].
  change (String.length (ids (S n))) with (S (String.length (ids n))).
  by rewrite IH.
Qed.

Lemma ids_inj (n n' : nat) : ids n = ids n' → n = n'.
Proof.
  intros Heq. apply (f_equal String.length) in Heq.
  rewrite !ids_length in Heq. lia.
Qed.

(** X13 at a client that called [add] twice, had the first call
    acknowledged, and called [add] again. *)
Lemma pending_mutation_ids_are_distinct_witness :
  let calls :=
    [Mutate "add" [VNum 2]; Mutate "add" [VNum 3];
     OnPull (PullResponse.mk 1 {[ "value" := VNum 2 ]} (Some "mm"));
     Mutate "add" [VNum 4]] in
  let st := client_calls (SyncKVClient.init {[ "add" := add ]} false ids) calls in
  OptimisticMutationRecord.mutationId <$> SyncKVClient.optimisticMutations st
  = ["mmm"; "mmmmm"]
  ∧ NoDup (OptimisticMutationRecord.mutationId <$> SyncKVClient.optimisticMutations st).
Proof.
  cbv zeta. split; [vm_compute; reflexivity |].
  apply (pending_mutation_ids_are_distinct {[ "add" := add ]} false ids _ ids_inj).
Defined.

(* ------------------------------------------------------------------ *)
(** ** Pull responses without an acknowledgement *)

(** X14. [onPull] on a response without a truthy [lastMutationId], in a
    client whose [pullQueued] is false (as it is in every state a client
    reaches): the patch overwrites the database key by key, the cookie becomes
    the response's, and the pending records stay in the queue as they are,
    none discarded and none re-run on the new database.  [emit] runs once for
    each key of the patch and for no other, and nothing is sent to the
    server. *)
Theorem onPull_without_ack_applies_patch
    (resp : PullResponse.t) (st : SyncKVClient.state) :
  truthy_id (PullResponse.lastMutationId resp) = false →
  SyncKVClient.pullQueued st = false →
  let out := SyncKVClient.onPull resp st in
  completion out = Normal tt
  ∧ (∀ k, SyncKVClient.db (final out) !! k
          = match PullResponse.patch resp !! k with
            | Some v => Some v
            | None => SyncKVClient.db st !! k
            end)
  ∧ SyncKVClient.cookie (final out) = Some (PullResponse.cookie resp)
  ∧ SyncKVClient.optimisticMutations (final out) = SyncKVClient.optimisticMutations st
  ∧ SyncKVClient.subscriptions (final out) = SyncKVClient.subscriptions st
  ∧ trace out
    = client_logged st "Received pull"
        ++ (keys (PullResponse.patch resp) ≫= emit_calls (final out)).
Proof.
  intros Hid Hpq. cbv zeta. rewrite (onPull_initial _ _ Hid). cbv zeta.
  rewrite Hpq. unfold completion, final, trace. cbn [fst snd].
  split_and!; try reflexivity.
  - intros k. cbn [SyncKVClient.db SyncKVClient.with_cookie SyncKVClient.with_db].
    unfold assign.
    destruct (PullResponse.patch resp !! k) as [v|] eqn:Hk.
    + by apply lookup_union_Some_l.
    + by rewrite lookup_union_r.
  - by rewrite app_nil_r.
Qed.

(** X14 at a client that watches "value", has [add(2)] pending and receives
    another client's write [{value: 9}]: the database takes 9, the pending
    patch stays [{value: 2}], and the watcher is called with 2. *)
Lemma onPull_without_ack_applies_patch_witness :
  let st0 := final (SyncKVClient.watch "value" 7
                      (SyncKVClient.init {[ "add" := add ]} false ids)) in
  let st := final (SyncKVClient.mutate "add" [VNum 2] st0) in
  let out := SyncKVClient.onPull (PullResponse.mk 1 {[ "value" := VNum 9 ]} None) st in
  SyncKVClient.db (final out) !! "value" = Some (VNum 9)
  ∧ OptimisticMutationRecord.patch <$> SyncKVClient.optimisticMutations (final out)
    = [ {[ "value" := VNum 2 ]} ]
  ∧ trace out = [Called "value" 7 (VNum 2)].
Proof.
  cbv zeta.
  set (st := final (SyncKVClient.mutate "add" [VNum 2] _)).
  set (resp := PullResponse.mk 1 _ None).
  destruct (onPull_without_ack_applies_patch resp st eq_refl eq_refl)
    as (_ & Hdb & _ & Hq & _ & Ht).
  split_and!.
  - rewrite Hdb. reflexivity.
  - rewrite Hq. vm_compute. reflexivity.
  - rewrite Ht. vm_compute. reflexivity.
Defined.

(* ------------------------------------------------------------------ *)
(** ** Client and server together *)

Lemma merge_app (l1 l2 : list Patch) : merge (l1 ++ l2) = merge l2 ∪ merge l1.
Proof.
  induction l2 as [|p l2 IH] using rev_ind.
  - rewrite app_nil_r. unfold merge at 2. simpl. by rewrite (left_id_L ∅ (∪)).
  - by rewrite app_assoc, !merge_snoc, IH, (assoc_L (∪)).
Qed.

Lemma merge_take_drop (c : nat) (log : list Patch) :
  assign (merge (take c log)) (merge (drop c log)) = merge log.
Proof. unfold assign. by rewrite <- merge_app, take_drop. Qed.



(** X16. A local mutation, from call to acknowledgement.  A client with
    nothing pending, whose database is the merge of the whole server log and
    whose cookie is the log's length, calls a mutator that returns on the
    client and on the server.  The last thing [mutate] does is push the one
    mutation; the server appends its own patch; the client's pull, with the
    cookie it had, returns that patch and the mutation's id; and [onPull]
    then leaves the client with an empty queue, the cookie advanced by one and
    a database that is the merge of the new log, so that [client.get] and
    [server.get] agree on every key; the server holds no pending id for the
    client any more.  Ids are non-empty strings. *)
Theorem local_mutation_round_trip
    (st : SyncKVClient.state) (s : SyncKVServer.state)
    (key : string) (args : list Value) (p : Patch) (tx : ServerTransaction.t) :
  let id := SyncKVClient.random st (SyncKVClient.drawn st) in
  let cid := SyncKVClient.clientId st in
  let m := Mutation.mk id key args in
  SyncKVClient.optimisticMutations st = [] →
  SyncKVClient.cookie st = Some (length (SyncKVServer.db s)) →
  SyncKVClient.db st = merge (SyncKVServer.db s) →
  id ≠ "" →
  rerun (SyncKVClient.mutators st) (SyncKVClient.db st)
    (OptimisticMutationRecord.mk id ∅ key args) = inr p →
  run_batch (SyncKVServer.mutators s) [m]
    (ServerTransaction.new (SyncKVServer.db s)) = inr tx →
  let mutated := SyncKVClient.mutate key args st in
  let s1 := final (SyncKVServer.push cid (Some [m]) s) in
  let pulled := SyncKVServer.pull cid (SyncKVClient.cookie (final mutated)) s1 in
  let resp :=
    PullResponse.mk (S (length (SyncKVServer.db s))) (ServerTransaction.patch tx)
      (Some id) in
  let out := SyncKVClient.onPull resp (final mutated) in
  last (trace mutated) = Some (ServerPush cid [m])
  ∧ SyncKVClient.optimisticMutations (final mutated)
    = [OptimisticMutationRecord.mk id p key args]
  ∧ completion pulled = Normal resp
  ∧ SyncKVServer.lastMutationIds (final pulled) !! cid = None
  ∧ completion out = Normal tt
  ∧ SyncKVClient.optimisticMutations (final out) = []
  ∧ SyncKVClient.cookie (final out) = Some (S (length (SyncKVServer.db s)))
  ∧ SyncKVClient.db (final out) = merge (SyncKVServer.db s1)
  ∧ (∀ k, SyncKVClient.get k (final out) = SyncKVServer.get k s1).
Proof.
  intros id cid m Hq Hcookie Hdb Hne Hclient Hserver. cbv zeta.
  destruct (push_appends_and_pokes_all_aux s cid [m] tx m Hserver eq_refl)
    as (Hdb1 & Hids1).
  set (s1 := final (SyncKVServer.push cid (Some [m]) s)) in *.
  rewrite mutate_run. cbv zeta. fold id. rewrite Hclient, Hq.
  unfold trace, final, completion. cbn [fst snd].
  cbn [SyncKVClient.cookie SyncKVClient.with_optimisticMutations
       SyncKVClient.with_drawn SyncKVClient.optimisticMutations app].
  rewrite Hcookie.
  set (st2 := SyncKVClient.with_optimisticMutations _ _).
  set (resp := PullResponse.mk _ _ _).
  assert (truthy_id (PullResponse.lastMutationId resp) = true) as Hid
    by (by apply truthy_id_Some).
  assert (findIndex (acked (PullResponse.lastMutationId resp))
            (SyncKVClient.optimisticMutations st2) = Some 0) as Hfind.
  { subst st2 resp. cbn. unfold acked. cbn. by rewrite bool_decide_eq_true_2. }
  split_and!.
  - rewrite !app_assoc. apply last_snoc.
  - done.
  - rewrite pull_run. cbv zeta. cbn [fst].
    rewrite Hdb1, Hids1, lookup_insert_eq. change (default 0 (Some ?n)) with n.
    rewrite length_app, drop_app_length, Nat.add_1_r.
    unfold merge, assign. simpl. by rewrite (right_id_L ∅ (∪)).
  - rewrite pull_run. cbv zeta. cbn [fst snd].
    rewrite Hids1, lookup_insert_eq, (truthy_id_Some (Mutation.mutationId m) Hne).
    cbn [SyncKVServer.lastMutationIds SyncKVServer.with_lastMutationIds].
    apply lookup_delete_eq.
  - by rewrite (onPull_ack _ _ _ Hid Hfind).
  - by rewrite (onPull_ack _ _ _ Hid Hfind).
  - by rewrite (onPull_ack _ _ _ Hid Hfind).
  - rewrite (onPull_ack _ _ _ Hid Hfind). cbn.
    rewrite Hdb, Hdb1, merge_snoc. reflexivity.
  - intros k. rewrite (onPull_ack _ _ _ Hid Hfind).
    unfold SyncKVClient.get, SyncKVServer.get. cbn.
    rewrite Hdb, Hdb1, <- merge_lookup, merge_snoc. reflexivity.
Qed.

(** X16 at the first test of the suite: a fresh client, past its initial
    pull from an empty server, calls [add(2)]. *)
Lemma local_mutation_round_trip_witness :
  let s := SyncKVServer.new {[ "add" := add ]} None false in
  let st := final (SyncKVClient.onPull (PullResponse.mk 0 ∅ None)
                     (SyncKVClient.init {[ "add" := add ]} false ids)) in
  let mutated := SyncKVClient.mutate "add" [VNum 2] st in
  let s1 := final (SyncKVServer.push "m" (Some [Mutation.mk "mm" "add" [VNum 2]]) s) in
  let out :=
    SyncKVClient.onPull (PullResponse.mk 1 {[ "value" := VNum 2 ]} (Some "mm"))
      (final mutated) in
  last (trace mutated) = Some (ServerPush "m" [Mutation.mk "mm" "add" [VNum 2]])
  ∧ SyncKVClient.optimisticMutations (final out) = []
  ∧ SyncKVClient.cookie (final out) = Some 1
  ∧ SyncKVClient.get "value" (final out) = VNum 2
  ∧ SyncKVServer.get "value" s1 = VNum 2.
Proof.
  cbv zeta.
  set (s := SyncKVServer.new _ None false).
  set (st := final (SyncKVClient.onPull (PullResponse.mk 0 ∅ None) _)).
  assert (rerun (SyncKVClient.mutators st) (SyncKVClient.db st)
            (OptimisticMutationRecord.mk
               (SyncKVClient.random st (SyncKVClient.drawn st)) ∅ "add" [VNum 2])
          = inr {[ "value" := VNum 2 ]}) as Hclient by (vm_compute; reflexivity).
  assert (run_batch (SyncKVServer.mutators s)
            [Mutation.mk (SyncKVClient.random st (SyncKVClient.drawn st))
               "add" [VNum 2]]
            (ServerTransaction.new (SyncKVServer.db s))
          = inr (ServerTransaction.mk [] {[ "value" := VNum 2 ]})) as Hserver
    by (vm_compute; reflexivity).
  destruct (local_mutation_round_trip st s "add" [VNum 2] _ _
              eq_refl eq_refl ltac:(vm_compute; reflexivity)
              ltac:(discriminate) Hclient Hserver)
    as (Hlast & _ & _ & _ & _ & Hq & Hc & _ & Hget).
  split_and!.
  - exact Hlast.
  - exact Hq.
  - exact Hc.
  - etrans; [exact (Hget "value") | vm_compute; reflexivity].
  - vm_compute. reflexivity.
Defined.

(* ------------------------------------------------------------------ *)
(** ** Watching and unwatching *)



(** X18. A remote write reaches an idle client.  A client with nothing
    pending, whose database is the merge of the first [cookie] patches of the
    server's log, and for which the server holds no pending id, hands [onPull]
    the response of its pull.  Then [client.get] returns, for every key, what
    [server.get] returns, the cookie is the length of the log, and the
    callbacks registered for each key of the patch, and no others, are called
    with the server's value for the key. *)
Theorem remote_write_reaches_idle_client
    (st : SyncKVClient.state) (s : SyncKVServer.state) (resp : PullResponse.t) :
  SyncKVClient.optimisticMutations st = [] →
  SyncKVClient.pullQueued st = false →
  synced st (SyncKVServer.db s) →
  SyncKVServer.lastMutationIds s !! SyncKVClient.clientId st = None →
  completion (SyncKVServer.pull (SyncKVClient.clientId st) (SyncKVClient.cookie st) s)
  = Normal resp →
  let out := SyncKVClient.onPull resp st in
  completion out = Normal tt
  ∧ (∀ k, SyncKVClient.get k (final out) = SyncKVServer.get k s)
  ∧ SyncKVClient.cookie (final out) = Some (length (SyncKVServer.db s))
  ∧ trace out
    = client_logged st "Received pull"
        ++ (keys (PullResponse.patch resp) ≫= λ k,
              (λ callback, Called k callback (SyncKVServer.get k s))
                <$> default [] (SyncKVClient.subscriptions st !! k)).
Proof.
  unfold synced. intros Hq Hpq Hsync Hnone Hpull. cbv zeta.
  rewrite pull_run in Hpull. cbv zeta in Hpull. unfold completion in Hpull.
  cbn [fst] in Hpull. injection Hpull as <-. rewrite Hnone.
  set (resp := PullResponse.mk _ _ None).
  rewrite (onPull_initial resp st eq_refl). cbv zeta. rewrite Hpq.
  unfold completion, final, trace. cbn [fst snd].
  set (st1 := SyncKVClient.with_cookie _ _).
  assert (∀ k, SyncKVClient.get k st1 = SyncKVServer.get k s) as Hget.
  { intros k. unfold SyncKVClient.get, SyncKVServer.get. subst st1. simpl.
    rewrite Hq. simpl. rewrite Hsync, merge_take_drop.
    unfold prop. by rewrite merge_lookup. }
  split_and!; [done | done | done |].
  rewrite app_nil_r. f_equal. apply list_bind_ext; [| done].
  intros k. unfold emit_calls. by rewrite Hget.
Qed.

(** X18 at a client that watches "a" and saw the initial state [{a: 1}] of
    a server on which another client has since pushed [put("a", 2)]. *)
Lemma remote_write_reaches_idle_client_witness :
  let s0 := SyncKVServer.new {[ "put" := put "a" ]} (Some {[ "a" := VNum 1 ]}) false in
  let s := final (SyncKVServer.push "d" (Some [Mutation.mk "x" "put" [VNum 2]]) s0) in
  let st0 := final (SyncKVClient.watch "a" 7
                      (SyncKVClient.init {[ "put" := put "a" ]} false ids)) in
  let st := final (SyncKVClient.onPull (PullResponse.mk 1 {[ "a" := VNum 1 ]} None) st0) in
  let resp := PullResponse.mk 2 {[ "a" := VNum 2 ]} None in
  let out := SyncKVClient.onPull resp st in
  SyncKVServer.get "a" s = VNum 2
  ∧ SyncKVClient.get "a" (final out) = VNum 2
  ∧ trace out = [Called "a" 7 (VNum 2)].
Proof.
  cbv zeta.
  set (s := final (SyncKVServer.push "d" _ _)).
  set (st := final (SyncKVClient.onPull (PullResponse.mk 1 _ None) _)).
  set (resp := PullResponse.mk 2 _ None).
  assert (synced st (SyncKVServer.db s)) as Hsync by (vm_compute; reflexivity).
  assert (SyncKVServer.lastMutationIds s !! SyncKVClient.clientId st = None)
    as Hnone by (vm_compute; reflexivity).
  assert (completion (SyncKVServer.pull (SyncKVClient.clientId st)
                        (SyncKVClient.cookie st) s) = Normal resp) as Hpull
    by (vm_compute; reflexivity).
  destruct (remote_write_reaches_idle_client st s resp eq_refl eq_refl
              Hsync Hnone Hpull) as (_ & Hget & _ & Ht).
  split_and!.
  - vm_compute. reflexivity.
  - rewrite Hget. vm_compute. reflexivity.
  - rewrite Ht. vm_compute. reflexivity.
Defined.

(* ------------------------------------------------------------------ *)
(** ** What a mutator can do to its transaction *)





(* ------------------------------------------------------------------ *)
(** ** A mutator that throws during the rebase *)

(** X20. When [onPull] throws while it handles an acknowledgement (a
    mutator re-run in the rebase threw, or is not registered), the client is
    left part of the way: the server's patch is in the database, but the
    cookie is the old one, no record has left the queue (the acknowledged one
    included, each with the id, name and arguments it had), and no callback
    was called. *)
Theorem onPull_throw_leaves_patch_applied
    (resp : PullResponse.t) (st : SyncKVClient.state) (e : Error) :
  truthy_id (PullResponse.lastMutationId resp) = true →
  let out := SyncKVClient.onPull resp st in
  completion out = Throws e →
  SyncKVClient.db (final out)
  = assign (SyncKVClient.db st) (PullResponse.patch resp)
  ∧ SyncKVClient.cookie (final out) = SyncKVClient.cookie st
  ∧ identity <$> SyncKVClient.optimisticMutations (final out)
    = identity <$> SyncKVClient.optimisticMutations st
  ∧ trace out = client_logged st "Received pull".
Proof.
  intros Hid. cbv zeta.
  destruct (findIndex (acked (PullResponse.lastMutationId resp))
              (SyncKVClient.optimisticMutations st)) as [index|] eqn:Hfind.
  2:{ by rewrite (onPull_unknown _ _ Hid Hfind). }
  rewrite (onPull_ack _ _ _ Hid Hfind). cbv zeta.
  match goal with |- context [SyncKVClient.rebase_loop ?ix ?p ?s0] =>
    destruct (rebase_loop_frame ix p s0)
      as (Ht & _ & _ & Hdb & _ & Hc & _ & _ & Hident);
    destruct (SyncKVClient.rebase_loop ix p s0) as [[[pte|e'] st2] t]
  end; [done |].
  unfold completion, final, trace in *. cbn [fst snd] in *.
  intros _. subst t. rewrite app_nil_r. by split_and!.
Qed.

(** X20 at a client with [add(2)] and then a guarded mutation pending,
    when the acknowledgement of the first arrives with a patch that sets the
    lock. *)
Lemma onPull_throw_leaves_patch_applied_witness :
  let registry : gmap string AnyMutator := {[ "add" := add; "guarded" := guarded ]} in
  let st1 := final (SyncKVClient.mutate "add" [VNum 2]
                      (SyncKVClient.init registry false ids)) in
  let st := final (SyncKVClient.mutate "guarded" [] st1) in
  let resp := PullResponse.mk 1 {[ "value" := VNum 2; "lock" := VBool true ]}
                (Some "mm") in
  let out := SyncKVClient.onPull resp st in
  completion out = Throws MutatorError
  ∧ prop (SyncKVClient.db (final out)) "lock" = VBool true
  ∧ SyncKVClient.cookie (final out) = None
  ∧ OptimisticMutationRecord.mutationId <$> SyncKVClient.optimisticMutations (final out)
    = ["mm"; "mmm"].
Proof.
  cbv zeta.
  set (st := final (SyncKVClient.mutate "guarded" [] _)).
  set (resp := PullResponse.mk 1 _ (Some "mm")).
  assert (completion (SyncKVClient.onPull resp st) = Throws MutatorError) as Hthrow
    by (vm_compute; reflexivity).
  destruct (onPull_throw_leaves_patch_applied resp st MutatorError eq_refl Hthrow)
    as (Hdb & Hc & Hident & _).
  split_and!.
  - exact Hthrow.
  - rewrite Hdb. vm_compute. reflexivity.
  - rewrite Hc. reflexivity.
  - rewrite (mutationId_of_identity _ _ Hident). vm_compute. reflexivity.
Defined.
